(** * Government-ID verification pipeline: a shallow embedding

    This development embeds [src/services/verificationService.ts] (the
    [VerificationService] class) and the [canVerify] guard of
    [src/pages/Index.tsx], and states the behaviour of the pipeline as
    theorems over that embedding.

    Conventions of the embedding.
    - A JavaScript [number] is the rational it denotes ([Q]). The arithmetic
      of the quality gate, of the resize and of the percentages shown is that
      of IEEE binary64: every operation is rounded to the nearest double
      ([Double.round]). The division of the recognition confidence by 100 and
      the averaging of the two confidences are read over the rationals. NaN
      and the infinities are outside the model.
    - A JavaScript string is a Rocq [string]; its characters are the code units
      0..255 (the Latin-1 range), on which [toLowerCase], [trim] and the
      regular-expression classes are defined as ECMAScript defines them.
    - A value that is thrown is a [Thrown]: an instance of [Error] with its
      message, or any other value.
    - The browser and the two engines (image decoding, canvas, OpenCV,
      Tesseract) are parameters of the pipeline; they may throw. *)

From Stdlib Require Import QArith Qabs Qround Qpower Lqa ZArith Lia Ascii Sorted.
From stdpp Require Import gmap strings list fin_maps pretty.

Local Open Scope string_scope.

(* ===================================================================== *)
(** ** JavaScript string primitives used by the service *)
(* ===================================================================== *)

Module Js.

Definition code (c : ascii) : N := N_of_ascii c.

(** [WhiteSpace] and [LineTerminator] code units below 256: TAB, LF, VT, FF,
    CR, SP and NBSP. This is the set stripped by [trim] and matched by the
    regular-expression class [\s]. *)
Definition isWhiteSpace (c : ascii) : bool :=
  let n := code c in
  ((9 <=? n) && (n <=? 13) || (n =? 32) || (n =? 160))%N.

(** The code units the regular-expression dot refuses. *)
Definition isLineTerminator (c : ascii) : bool :=
  let n := code c in ((n =? 10) || (n =? 13))%N.

(** [String.prototype.toLowerCase] on one code unit: A-Z, and the Latin-1
    capitals U+00C0..U+00DE other than the multiplication sign. *)
Definition toLowerCaseChar (c : ascii) : ascii :=
  let n := code c in
  if ((65 <=? n) && (n <=? 90))%N then ascii_of_N (n + 32)
  else if ((192 <=? n) && (n <=? 222) && negb (n =? 215))%N
       then ascii_of_N (n + 32)
  else c.

Fixpoint toLowerCase (s : string) : string :=
  match s with
  | EmptyString => EmptyString
  | String c s' => String (toLowerCaseChar c) (toLowerCase s')
  end.

(** Canonicalisation of the [i] flag of a non-unicode regular expression:
    the upper-case mapping of one code unit. The two Latin-1 letters whose
    capital lies above U+00FF (micro sign, y with diaeresis) and the sharp s
    (whose capital is two units) compare equal to themselves only, which is
    what leaving them unchanged expresses. *)
Definition canonicalize (c : ascii) : ascii :=
  let n := code c in
  if ((97 <=? n) && (n <=? 122))%N then ascii_of_N (n - 32)
  else if ((224 <=? n) && (n <=? 254) && negb (n =? 247))%N
       then ascii_of_N (n - 32)
  else c.

Definition isEmpty (s : string) : bool :=
  match s with EmptyString => true | _ => false end.

Fixpoint trimStart (s : string) : string :=
  match s with
  | EmptyString => EmptyString
  | String c s' => if isWhiteSpace c then trimStart s' else s
  end.

Fixpoint trimEnd (s : string) : string :=
  match s with
  | EmptyString => EmptyString
  | String c s' =>
      let t := trimEnd s' in
      if isWhiteSpace c && isEmpty t then EmptyString else String c t
  end.

Definition trim (s : string) : string := trimEnd (trimStart s).

Definition LF : ascii := ascii_of_N 10.

(** [s.split('\n')]: the pieces between line feeds; the empty string gives
    one empty piece. *)
Fixpoint splitLines (s : string) : list string :=
  match s with
  | EmptyString => [EmptyString]
  | String c s' =>
      let rest := splitLines s' in
      if Ascii.eqb c LF then EmptyString :: rest
      else match rest with
           | piece :: pieces => String c piece :: pieces
           | [] => [String c EmptyString]
           end
  end.

Fixpoint startsWith (s pat : string) : bool :=
  match pat, s with
  | EmptyString, _ => true
  | String p pat', String c s' => Ascii.eqb c p && startsWith s' pat'
  | String _ _, EmptyString => false
  end.

(** [s.includes(pat)] *)
Fixpoint includes (s pat : string) : bool :=
  startsWith s pat ||
  match s with
  | EmptyString => false
  | String _ s' => includes s' pat
  end.

(** [arr.indexOf(x)] on an array of strings: the first index holding a
    string equal to [x], or -1. *)
Fixpoint indexOfFrom (i : Z) (arr : list string) (x : string) : Z :=
  match arr with
  | [] => (-1)%Z
  | y :: arr' => if String.eqb y x then i else indexOfFrom (i + 1) arr' x
  end.

Definition indexOf (arr : list string) (x : string) : Z := indexOfFrom 0 arr x.

(** [[...new Set(arr)]]: first occurrences, in insertion order. *)
Fixpoint uniqueInto (seen : list string) (arr : list string) : list string :=
  match arr with
  | [] => seen
  | x :: arr' =>
      if existsb (String.eqb x) seen then uniqueInto seen arr'
      else uniqueInto (seen ++ [x])%list arr'
  end.

Definition unique (arr : list string) : list string := uniqueInto [] arr.

(** [arr.sort()] with the default comparator: ascending order of the code
    units. *)
Fixpoint insertSorted (x : string) (arr : list string) : list string :=
  match arr with
  | [] => [x]
  | y :: arr' =>
      if String.leb x y then x :: arr else y :: insertSorted x arr'
  end.

Fixpoint sort (arr : list string) : list string :=
  match arr with
  | [] => []
  | x :: arr' => insertSorted x (sort arr')
  end.

(** *** The regular expression [new RegExp(`${pattern}[:\s]*(.+)`, 'i')]

    [pattern] is one of the phrases of the label dictionary: letters and
    spaces only, so it stands for itself in the expression. The functions
    below follow the backtracking matcher of ECMAScript on this shape. *)

(** The literal part at the front of [s], compared after canonicalisation;
    returns what follows it. *)
Fixpoint matchLiteral (pat s : string) : option string :=
  match pat, s with
  | EmptyString, _ => Some s
  | String p pat', String c s' =>
      if Ascii.eqb (canonicalize c) (canonicalize p)
      then matchLiteral pat' s' else None
  | String _ _, EmptyString => None
  end.

Definition inLabelSeparatorClass (c : ascii) : bool :=
  Ascii.eqb c ":" || isWhiteSpace c.

(** [(.+)] at the front of [s]: the longest run of characters other than
    line terminators, which must not be empty. *)
Fixpoint dotRun (s : string) : string :=
  match s with
  | EmptyString => EmptyString
  | String c s' =>
      if isLineTerminator c then EmptyString else String c (dotRun s')
  end.

Definition dotPlus (s : string) : option string :=
  match dotRun s with
  | EmptyString => None
  | cap => Some cap
  end.

(** [[:\s]*(.+)] at the front of [s]. The star is greedy: it first takes
    the character of the class and goes on; when the rest cannot match, it
    gives the character back to the group. *)
Fixpoint separatorsThenGroup (s : string) : option string :=
  match s with
  | EmptyString => None
  | String c s' =>
      if inLabelSeparatorClass c then
        match separatorsThenGroup s' with
        | Some cap => Some cap
        | None => dotPlus s
        end
      else dotPlus s
  end.

Definition matchHere (pat s : string) : option string :=
  match matchLiteral pat s with
  | Some rest => separatorsThenGroup rest
  | None => None
  end.

(** [line.match(regex)] then [match[1]]: the group of the leftmost match,
    [None] when [match] is [null]. *)
Fixpoint regexGroup (pat line : string) : option string :=
  match matchHere pat line with
  | Some cap => Some cap
  | None =>
      match line with
      | EmptyString => None
      | String _ line' => regexGroup pat line'
      end
  end.

End Js.

(* ===================================================================== *)
(** ** Thrown values and fallible computations *)
(* ===================================================================== *)

(** What a [throw] or a rejected promise carries. The service tells instances
    of [Error] from every other value ([error instanceof Error]). *)
Inductive Thrown : Type :=
| ErrorInstance (message : string)
| NonError.

(** An awaited computation: it throws, or it returns. *)
Definition Outcome (A : Type) : Type := (Thrown + A)%type.

Definition throw {A : Type} (e : Thrown) : Outcome A := inl e.
Definition ok {A : Type} (a : A) : Outcome A := inr a.

(* ===================================================================== *)
(** ** Number formatting *)
(* ===================================================================== *)

(** [x.toFixed(1)] for [|x| < 1e21]: the integer [n] nearest to [10 x], the
    larger one at a tie, written with one digit after the point; the sign is
    taken off first. *)
Definition toFixed1 (x : Q) : string :=
  let sign := if Qle_bool 0 x then "" else "-" in
  let n := Qfloor (Qabs x * 10 + 0.5)%Q in
  sign +:+ pretty (n / 10)%Z +:+ "." +:+ pretty (n mod 10)%Z.

(** Strict comparison of two numbers. *)
Definition Qltb (x y : Q) : bool := negb (Qle_bool y x).

(* ===================================================================== *)
(** ** Binary64 arithmetic *)
(* ===================================================================== *)

(** The finite doubles as the rationals they denote. An operation of
    JavaScript on two numbers is the exact operation followed by [round],
    and a decimal literal is the double nearest to it. *)
Module Double.

(** [2 ^ e] *)
Definition pow2 (e : Z) : Q := (2 ^ e)%Q.

(** The exponent of a positive number [x]: the [e] with
    [2 ^ e <= x < 2 ^ (e + 1)]. *)
Definition exponent (x : Q) : Z :=
  let e := (Z.log2 (Qnum x) - Z.log2 (Zpos (Qden x)))%Z in
  if Qle_bool (pow2 e) x then e else (e - 1)%Z.

(** The nearest integer, the even one at a tie. *)
Definition nearestEven (x : Q) : Z :=
  let f := Qfloor x in
  match Qcompare (x - inject_Z f) (1 # 2) with
  | Lt => f
  | Gt => (f + 1)%Z
  | Eq => if Z.even f then f else (f + 1)%Z
  end.

(** The distance between the doubles around a positive [x]: 53 bits of
    significand, and the spacing [2 ^ -1074] of the subnormal numbers below
    [2 ^ -1022]. *)
Definition ulp (x : Q) : Q := pow2 (Z.max (exponent x) (-1022) - 52).

Definition roundPositive (x : Q) : Q :=
  (inject_Z (nearestEven (x / ulp x)) * ulp x)%Q.

(** The double nearest to [x], the one with an even significand at a tie;
    for [|x|] below the largest double. *)
Definition round (x : Q) : Q :=
  match Qnum x with
  | Z0 => 0%Q
  | Zpos _ => Qred (roundPositive x)
  | Zneg _ => Qred (- roundPositive (- x))
  end.

Definition add (x y : Q) : Q := round (x + y).
Definition sub (x y : Q) : Q := round (x - y).
Definition mul (x y : Q) : Q := round (x * y).
Definition div (x y : Q) : Q := round (x / y).

Arguments round : simpl never.
Arguments add : simpl never.
Arguments sub : simpl never.
Arguments mul : simpl never.
Arguments div : simpl never.

End Double.

(* ===================================================================== *)
(** ** Result records ([VerificationResults.tsx]) *)
(* ===================================================================== *)

Module TemplateMatch.
Record t : Type := Build {
  isMatch : bool;
  confidence : Q;
  details : string
}.
End TemplateMatch.

Module TextExtraction.
Record t : Type := Build {
  extractedLabels : list string;
  extractedData : gmap string string;
  confidence : Q;
  details : string
}.
End TextExtraction.

Module Overall.
Record t : Type := Build {
  isValid : bool;
  confidence : Q
}.
End Overall.

Record VerificationResult : Type := {
  templateMatch : TemplateMatch.t;
  textExtraction : TextExtraction.t;
  overall : Overall.t
}.

(* ===================================================================== *)
(** ** Field extraction ([extractTextLabels]) *)
(* ===================================================================== *)

(** What [tesseractWorker.recognize] resolves to, as far as the service reads
    it: [data.text] and [data.confidence]. *)
Record OcrData : Type := {
  text : string;
  ocrConfidence : Q
}.

Module Extractor.

Record LabelPattern : Type := {
  label : string;
  patterns : list string
}.

Definition labelPatterns : list LabelPattern := [
  {| label := "Name"; patterns := ["name"; "first name"; "last name"; "full name"] |};
  {| label := "Date of Birth"; patterns := ["date of birth"; "dob"; "birth date"; "born"] |};
  {| label := "ID Number"; patterns := ["id number"; "license number"; "document number"; "dl"] |};
  {| label := "Address"; patterns := ["address"; "street"; "residence"] |};
  {| label := "City"; patterns := ["city"] |};
  {| label := "State"; patterns := ["state"; "province"] |};
  {| label := "ZIP Code"; patterns := ["zip"; "postal code"; "zip code"] |};
  {| label := "Sex"; patterns := ["sex"; "gender"] |};
  {| label := "Height"; patterns := ["height"; "ht"] |};
  {| label := "Weight"; patterns := ["weight"; "wt"] |};
  {| label := "Issue Date"; patterns := ["issue date"; "issued"; "iss"] |};
  {| label := "Expiration"; patterns := ["expiration date"; "expires"; "exp"] |};
  {| label := "Class"; patterns := ["class"; "license class"] |}
].

(** [const lines = extractedText.split('\n').filter(line => line.trim().length > 0)] *)
Definition nonEmptyLines (extractedText : string) : list string :=
  List.filter (fun line => negb (Js.isEmpty (Js.trim line)))
              (Js.splitLines extractedText).

(** The two accumulators of the scan. *)
Record Scan : Type := {
  foundLabels : list string;
  scanData : gmap string string
}.

Definition emptyScan : Scan := {| foundLabels := []; scanData := ∅ |}.

(** The [else] branch: the line after the position [lines.indexOf(line)]
    reports. The guard keeps [lineIndex + 1] inside the array, so the
    lookup always finds a line. *)
Definition valueFromNextLine (lines : list string) (line lbl : string)
    (extractedData : gmap string string) : gmap string string :=
  let lineIndex := Js.indexOf lines line in
  if (lineIndex <? Z.of_nat (length lines) - 1)%Z then
    match lines !! Z.to_nat (lineIndex + 1) with
    | Some next =>
        let nextLine := Js.trim next in
        if negb (Js.isEmpty nextLine) && (0 <? String.length nextLine)%nat
        then <[lbl := nextLine]> extractedData
        else extractedData
    | None => extractedData
    end
  else extractedData.

(** The body of [if (lowerLine.includes(pattern)) { ... }], up to [break]. *)
Definition recordMatch (lines : list string) (line lbl pattern : string)
    (st : Scan) : Scan :=
  let found := (foundLabels st ++ [lbl])%list in
  match Js.regexGroup pattern line with
  | Some group =>
      if negb (Js.isEmpty group)
      then {| foundLabels := found;
              scanData := <[lbl := Js.trim group]> (scanData st) |}
      else {| foundLabels := found;
              scanData := valueFromNextLine lines line lbl (scanData st) |}
  | None =>
      {| foundLabels := found;
         scanData := valueFromNextLine lines line lbl (scanData st) |}
  end.

(** [for (const pattern of patterns)], left at the first phrase the line
    includes. *)
Fixpoint scanPatterns (lines : list string) (line lowerLine lbl : string)
    (pats : list string) (st : Scan) : Scan :=
  match pats with
  | [] => st
  | pattern :: pats' =>
      if Js.includes lowerLine pattern
      then recordMatch lines line lbl pattern st
      else scanPatterns lines line lowerLine lbl pats' st
  end.

(** [for (const { label, patterns } of labelPatterns)] *)
Definition scanLine (lines : list string) (st : Scan) (line : string) : Scan :=
  let lowerLine := Js.trim (Js.toLowerCase line) in
  fold_left
    (fun st lp => scanPatterns lines line lowerLine (label lp) (patterns lp) st)
    labelPatterns st.

(** [for (const line of lines)] *)
Definition scanLines (lines : list string) : Scan :=
  fold_left (scanLine lines) lines emptyScan.

(** [Math.min] of two numbers. *)
Definition Math_min (x y : Q) : Q := if Qle_bool x y then x else y.

(** The statements of the [try] block after [recognize] has resolved. *)
Definition extractFrom (data : OcrData) : TextExtraction.t :=
  let lines := nonEmptyLines (text data) in
  let st := scanLines lines in
  let uniqueLabels := Js.sort (Js.unique (foundLabels st)) in
  let confidence := Math_min (ocrConfidence data / 100)%Q 1%Q in
  let details :=
    "OCR extracted " +:+ pretty (String.length (text data)) +:+
    " characters with " +:+ toFixed1 (ocrConfidence data) +:+
    "% confidence. Found " +:+ pretty (length uniqueLabels) +:+
    " document field labels with values." in
  {| TextExtraction.extractedLabels := uniqueLabels;
     TextExtraction.extractedData := scanData st;
     TextExtraction.confidence := confidence;
     TextExtraction.details := details |}.

(** The [catch] block. *)
Definition failed : TextExtraction.t :=
  {| TextExtraction.extractedLabels := [];
     TextExtraction.extractedData := ∅;
     TextExtraction.confidence := 0%Q;
     TextExtraction.details :=
       "Text extraction failed due to OCR processing error." |}.

(** What the scan keeps true: the data has keys among the labels found,
    and the labels found are names of the dictionary. *)
Definition scanInvariant (st : Scan) : Prop :=
  (forall key, is_Some (scanData st !! key) -> key ∈ foundLabels st)
  /\ (forall lbl, lbl ∈ foundLabels st -> lbl ∈ map label labelPatterns).

(** Recognised texts: three lines with the birth date under its label, and
    four lines of which the first and the third are the same. *)
Definition sampleText : string :=
  "Name: John Smith" +:+
  String Js.LF ("Date of Birth" +:+ String Js.LF "01/01/1990").

Definition repeatedLineText : string :=
  "Name" +:+
  String Js.LF ("Alice" +:+ String Js.LF ("Name" +:+ String Js.LF "Bob")).

(** The names of the dictionary. *)
Definition canonicalLabels : list string := map label labelPatterns.

Definition ascending (a b : string) : Prop := String.leb a b = true.

(** The shape of a result: the labels are names of the dictionary, without
    repetition and in ascending order, and every key of the data is one of
    them. *)
Definition wellFormed (r : TextExtraction.t) : Prop :=
  (forall key : string,
      is_Some (TextExtraction.extractedData r !! key) ->
      key ∈ TextExtraction.extractedLabels r)
  /\ (forall lbl : string,
        lbl ∈ TextExtraction.extractedLabels r -> lbl ∈ canonicalLabels)
  /\ NoDup (TextExtraction.extractedLabels r)
  /\ Sorted ascending (TextExtraction.extractedLabels r).

End Extractor.

(* ===================================================================== *)
(** ** Quality gate ([validateImageQuality]) *)
(* ===================================================================== *)

Module Quality.

Definition analysisSize : Z := 400.
Definition threshold : Q := 30.

(** [data[i]] as a number. [ImageData.data] holds four bytes per pixel, so
    every index the loop reads lies inside the array. *)
Definition sample (data : list Z) (i : Z) : Q :=
  inject_Z (default 0%Z (data !! Z.to_nat i)).

(** [data[i] * 0.299 + data[i + 1] * 0.587 + data[i + 2] * 0.114], three
    products and two sums of doubles, from left to right. *)
Definition luminance (data : list Z) (i : Z) : Q :=
  Double.add
    (Double.add (Double.mul (sample data i) (Double.round 0.299))
                (Double.mul (sample data (i + 1)) (Double.round 0.587)))
    (Double.mul (sample data (i + 2)) (Double.round 0.114)).

(** The test of one iteration: pixel [i / 4] against the pixel stored next
    in the array. *)
Definition differs (data : list Z) (i : Z) : bool :=
  let current := luminance data i in
  let next := luminance data (i + 4) in
  let diff := Qabs (Double.sub current next) in
  Qltb threshold diff.

(** [for (let i = 0; i < data.length - 4; i += 4)]; [fuel] bounds the number
    of iterations. *)
Fixpoint edgeLoop (fuel : nat) (data : list Z) (i : Z) (edgeStrength : Z) : Z :=
  match fuel with
  | O => edgeStrength
  | S fuel' =>
      if (i <? Z.of_nat (length data) - 4)%Z then
        edgeLoop fuel' data (i + 4)
                 (if differs data i then edgeStrength + 1 else edgeStrength)%Z
      else edgeStrength
  end.

(** The loop with as many iterations as it can need. *)
Definition edgeStrength (data : list Z) : Z :=
  edgeLoop (length data) data 0 0.

(** [edgeStrength / (data.length / 4)] *)
Definition edgeRatio (data : list Z) : Q :=
  Double.div (inject_Z (edgeStrength data))
             (Double.div (inject_Z (Z.of_nat (length data))) 4).

Definition lowQualityMessage : string :=
  "Image quality too low: Image appears to be blurry or lacks detail. Please upload a clearer image.".

(** The decision on the pixels of the analysis canvas. On an empty array the
    ratio is [0 / 0], which is below nothing. *)
Definition checkData (data : list Z) : Outcome unit :=
  match data with
  | [] => ok tt
  | _ :: _ =>
      if Qltb (edgeRatio data) (Double.round 0.1)
      then throw (ErrorInstance lowQualityMessage)
      else ok tt
  end.

(** *** The gate in the words of the specification

    The specification counts the horizontally adjacent pairs, those of two
    pixels of one row, and divides by the number of pairs examined. *)

Definition pixels : Z := analysisSize * analysisSize.

(** [countFrom p from n acc]: [acc] plus how many of [from], [from + 1], ...,
    [from + n - 1] satisfy [p]. *)
Fixpoint countFrom (p : Z -> bool) (from : Z) (n : nat) (acc : Z) : Z :=
  match n with
  | O => acc
  | S n' => countFrom p (from + 1) n' (if p from then acc + 1 else acc)%Z
  end.

Definition count (p : Z -> bool) (from : Z) (n : nat) : Z :=
  countFrom p from n 0.

(** Pixel [k] is not the last of its row. *)
Definition hasRightNeighbour (k : Z) : bool :=
  negb (k mod analysisSize =? analysisSize - 1)%Z.

Definition horizontalPairs : Z :=
  count hasRightNeighbour 0 (Z.to_nat pixels).

Definition horizontalEdgeCount (data : list Z) : Z :=
  count (fun k => hasRightNeighbour k && differs data (4 * k)) 0
        (Z.to_nat pixels).

Definition horizontalEdgeRatio (data : list Z) : Q :=
  (inject_Z (horizontalEdgeCount data) / inject_Z horizontalPairs)%Q.

(** The gate as the specification words it. *)
Definition gateCountsHorizontalPairs : Prop :=
  forall data : list Z,
    Z.of_nat (length data) = (4 * pixels)%Z ->
    checkData data = throw (ErrorInstance lowQualityMessage)
    <-> (horizontalEdgeRatio data < 0.1)%Q.

(** Every pixel has the colour of the first one. *)
Definition flatColor (data : list Z) : Prop :=
  forall k j : Z,
    (0 <= k < pixels)%Z -> (0 <= j < 3)%Z ->
    data !! Z.to_nat (4 * k + j) = data !! Z.to_nat j.

(** Every pixel differs from its right neighbour by more than the
    threshold. *)
Definition checkerboard (data : list Z) : Prop :=
  forall row col : Z,
    (0 <= row < analysisSize)%Z -> (0 <= col < analysisSize - 1)%Z ->
    differs data (4 * (analysisSize * row + col)) = true.

(** *** Test images *)

(** The array of an image whose pixel [k] (row-major) has the grey level
    [grey k] and is opaque. *)
Fixpoint render (grey : Z -> Z) (from : Z) (n : nat) : list Z :=
  match n with
  | O => []
  | S n' => grey from :: grey from :: grey from :: 255%Z
            :: render grey (from + 1) n'
  end.

(** Vertical stripes one pixel wide on the first 39 rows and on the left
    half of row 39, black on the rest of that row; below, rows that are white
    and black in turn. Pixels of one row differ on the striped part only; the
    last pixel of a row differs from the first pixel of the next row on every
    row. *)
Definition stripes (k : Z) : Z :=
  let (row, col) := Z.div_eucl k analysisSize in
  if (row <? 39)%Z then (if Z.odd col then 255 else 0)%Z
  else if (row =? 39)%Z then (if Z.odd col && (col <? 200)%Z then 255 else 0)%Z
  else (if Z.even row then 255 else 0)%Z.

Definition stripesData : list Z := render stripes 0 (Z.to_nat pixels).

(** The luminance of a grey pixel. *)
Definition greyLuminance (level : Z) : Q := luminance [level; level; level] 0.

(** Two grey levels differ by more than the threshold. *)
Definition greyDiffers (level level' : Z) : bool :=
  Qltb threshold (Qabs (Double.sub (greyLuminance level) (greyLuminance level'))).

(** Two grey pixels stored one after the other differ by more than the
    threshold. *)
Definition greyStep (grey : Z -> Z) (k : Z) : bool :=
  greyDiffers (grey k) (grey (k + 1)%Z).

(** The same on an image that is black and white only. *)
Definition blackWhiteStep (grey : Z -> Z) (k : Z) : bool :=
  negb (grey k =? grey (k + 1)%Z)%Z.

End Quality.

(* ===================================================================== *)
(** ** Template matching ([performTemplateMatching]) *)
(* ===================================================================== *)

Module Matcher.

Definition maxSize : Q := 800.

(** [sourceWidth] and [sourceHeight] after the [if], for an image of [width]
    by [height] with positive sides: the numbers the image is drawn at. The
    canvas takes their integer parts. *)
Definition resized (width height : Q) : Q * Q :=
  let aspect := Double.div width height in
  let w := Extractor.Math_min width maxSize in
  let h := Double.div w aspect in
  if Qltb maxSize h then (Double.mul maxSize aspect, maxSize) else (w, h).

(** [canvas.width = sourceWidth; canvas.height = sourceHeight] for sides
    below [2 ^ 32]. *)
Definition canvasSize (size : Q * Q) : Z * Z :=
  (Qfloor (fst size), Qfloor (snd size)).

(** From [const isMatch = confidence > 0.3] to the [return] of the [try]
    block; [confidence] is [minMaxLoc.maxVal]. *)
Definition matched (confidence : Q) : TemplateMatch.t :=
  let isMatch := Qltb 0.3 confidence in
  let details :=
    "Template matching confidence: " +:+
    toFixed1 (Double.mul confidence 100) +:+
    "%. " +:+
    (if isMatch then "Documents appear to match the expected layout."
     else "Documents do not match the expected layout pattern.") in
  {| TemplateMatch.isMatch := isMatch;
     TemplateMatch.confidence := confidence;
     TemplateMatch.details := details |}.

(** The [catch] block. *)
Definition failed : TemplateMatch.t :=
  {| TemplateMatch.isMatch := false;
     TemplateMatch.confidence := 0%Q;
     TemplateMatch.details :=
       "Template matching failed due to processing error." |}.

End Matcher.

(* ===================================================================== *)
(** ** The service ([VerificationService]) *)
(* ===================================================================== *)

(** The private methods [verifyDocument] awaits, in the order of the source. *)
Inductive Stage : Type :=
| ValidateImageQuality
| LoadIdImage
| LoadReferenceImage
| PerformTemplateMatching
| ExtractTextLabels.

(** What a run does that an observer can see: a call of [onProgress], or the
    call of one of its stages. *)
Inductive Event : Type :=
| OnProgress (stage : string) (progress : Z)
| Enter (stage : Stage).

(** [overall] of [verifyDocument]. *)
Definition aggregate (templateResult : TemplateMatch.t)
    (textResult : TextExtraction.t) : Overall.t :=
  {| Overall.isValid :=
       TemplateMatch.isMatch templateResult
       && (0 <? length (TextExtraction.extractedLabels textResult))%nat;
     Overall.confidence :=
       ((TemplateMatch.confidence templateResult
         + TextExtraction.confidence textResult) / 2)%Q |}.

Definition errorMessage (error : Thrown) : string :=
  match error with
  | ErrorInstance message => message
  | NonError => "Unknown error"
  end.

Section Service.

(** [File], [HTMLImageElement] and the Tesseract worker. *)
Context {File Image Worker : Type}.

(** [loadImageFromFile]: decoding through an [Image] element; the promise
    is rejected with the event of [img.onerror], which is no [Error]. *)
Variable loadImageFromFile : File -> Outcome Image.
Variable imageWidth imageHeight : Image -> Q.

(** The canvas of the quality gate: the image drawn on 400 by 400 pixels and
    read back with [getImageData]. *)
Variable analysisData : Image -> Outcome (list Z).

(** The canvases and OpenCV calls of the matcher, from [drawImage] to
    [minMaxLoc(result).maxVal], for the two canvas sizes. *)
Variable correlation : Image -> Image -> Q * Q -> Q * Q -> Outcome Q.

(** [worker.recognize(imageFile)] and [worker.terminate()]. *)
Variable recognize : Worker -> File -> Outcome OcrData.
Variable terminate : Worker -> Outcome unit.

(** The fields of the service object. *)
Record Service : Type := {
  tesseractWorker : option Worker;
  isOpenCVReady : bool
}.

(** The service object and the events observed so far. *)
Record World : Type := {
  service : Service;
  events : list Event
}.

(** A method of the service: it reads and writes the world, and throws or
    returns. *)
Definition M (A : Type) : Type := World -> World * Outcome A.

Definition ret {A : Type} (a : A) : M A := fun w => (w, ok a).
Definition raise {A : Type} (e : Thrown) : M A := fun w => (w, throw e).
Definition bind {A B : Type} (m : M A) (k : A -> M B) : M B :=
  fun w =>
    match m w with
    | (w', inl e) => (w', inl e)
    | (w', inr a) => k a w'
    end.
Definition await {A : Type} (o : Outcome A) : M A := fun w => (w, o).
Definition this : M Service := fun w => (w, ok (service w)).
Definition emit (e : Event) : M unit :=
  fun w => ({| service := service w; events := (events w ++ [e])%list |}, ok tt).
Definition setWorker (worker : option Worker) : M unit :=
  fun w => ({| service := {| tesseractWorker := worker;
                             isOpenCVReady := isOpenCVReady (service w) |};
               events := events w |}, ok tt).
(** [try { body } catch (error) { handler }] *)
Definition tryCatch {A : Type} (body : M A) (handler : Thrown -> M A) : M A :=
  fun w =>
    match body w with
    | (w', inl e) => handler e w'
    | (w', inr a) => (w', inr a)
    end.

Notation "x <- m ;; k" := (bind m (fun x => k))
  (at level 100, m at next level, right associativity).
Notation "m ;;; k" := (bind m (fun _ => k))
  (at level 100, right associativity).

(** [onProgress?.(stage, progress)]: nothing without a callback. *)
Definition notify (onProgress : option (string -> Z -> Outcome unit))
    (stage : string) (progress : Z) : M unit :=
  match onProgress with
  | None => ret tt
  | Some callback =>
      emit (OnProgress stage progress) ;;; await (callback stage progress)
  end.

Definition validateImageQuality (imageFile : File) : M unit :=
  image <- await (loadImageFromFile imageFile) ;;
  data <- await (analysisData image) ;;
  await (Quality.checkData data).

Definition performTemplateMatching (sourceImg templateImg : Image)
  : M TemplateMatch.t :=
  tryCatch
    (let source := Matcher.resized (imageWidth sourceImg) (imageHeight sourceImg) in
     let template := Matcher.resized (imageWidth templateImg) (imageHeight templateImg) in
     confidence <- await (correlation sourceImg templateImg source template) ;;
     ret (Matcher.matched confidence))
    (fun error => ret Matcher.failed).

(** Reading [recognize] off a [null] worker throws a [TypeError]. *)
Definition extractTextLabels (imageFile : File) : M TextExtraction.t :=
  tryCatch
    (self <- this ;;
     data <- match tesseractWorker self with
             | Some worker => await (recognize worker imageFile)
             | None => raise (ErrorInstance
                         "Cannot read properties of null (reading 'recognize')")
             end ;;
     ret (Extractor.extractFrom data))
    (fun error => ret Extractor.failed).

(** The values the two methods hand back, read off their [try] and [catch]
    blocks. *)
Definition matcherResult (sourceImg templateImg : Image) : TemplateMatch.t :=
  match correlation sourceImg templateImg
          (Matcher.resized (imageWidth sourceImg) (imageHeight sourceImg))
          (Matcher.resized (imageWidth templateImg) (imageHeight templateImg))
  with
  | inl _ => Matcher.failed
  | inr confidence => Matcher.matched confidence
  end.

Definition extractorResult (self : Service) (imageFile : File)
  : TextExtraction.t :=
  match tesseractWorker self with
  | Some worker =>
      match recognize worker imageFile with
      | inl _ => Extractor.failed
      | inr data => Extractor.extractFrom data
      end
  | None => Extractor.failed
  end.

Definition notInitialized (self : Service) : bool :=
  negb (isOpenCVReady self) || negb (bool_decide (is_Some (tesseractWorker self))).

(** The [try] block of [verifyDocument]. *)
Definition verifyDocumentBody (idImageFile referenceImageFile : File)
    (onProgress : option (string -> Z -> Outcome unit)) : M VerificationResult :=
  notify onProgress "Validating image quality..." 5 ;;;
  emit (Enter ValidateImageQuality) ;;;
  validateImageQuality idImageFile ;;;
  notify onProgress "Loading images..." 10 ;;;
  emit (Enter LoadIdImage) ;;;
  idImage <- await (loadImageFromFile idImageFile) ;;
  emit (Enter LoadReferenceImage) ;;;
  referenceImage <- await (loadImageFromFile referenceImageFile) ;;
  notify onProgress "Performing template matching..." 30 ;;;
  emit (Enter PerformTemplateMatching) ;;;
  templateResult <- performTemplateMatching idImage referenceImage ;;
  notify onProgress "Extracting text labels..." 60 ;;;
  emit (Enter ExtractTextLabels) ;;;
  textResult <- extractTextLabels idImageFile ;;
  notify onProgress "Finalizing verification..." 90 ;;;
  let overall := aggregate templateResult textResult in
  notify onProgress "Verification complete" 100 ;;;
  ret {| templateMatch := templateResult;
         textExtraction := textResult;
         overall := overall |}.

Definition verifyDocument (idImageFile referenceImageFile : File)
    (onProgress : option (string -> Z -> Outcome unit)) : M VerificationResult :=
  self <- this ;;
  if notInitialized self
  then raise (ErrorInstance "Verification service not initialized")
  else
    tryCatch (verifyDocumentBody idImageFile referenceImageFile onProgress)
        (fun error =>
           raise (ErrorInstance ("Verification failed: " +:+ errorMessage error))).

Definition cleanup : M unit :=
  self <- this ;;
  match tesseractWorker self with
  | Some worker => await (terminate worker) ;;; setWorker None
  | None => ret tt
  end.

(** *** Calls that overlap

    An asynchronous method runs up to its first [await] when it is called and
    hands back a promise. A [Session] is the service together with the runs
    whose promise is not settled yet; the service object itself keeps no
    record of them. *)
Record Session : Type := {
  world : World;
  inFlight : list (File * File)
}.

(** Calling [verifyDocument]: the guard on the fields of the service, then
    the run is in flight. *)
Definition callVerifyDocument (s : Session) (idImageFile referenceImageFile : File)
  : Session * Outcome unit :=
  if notInitialized (service (world s))
  then (s, throw (ErrorInstance "Verification service not initialized"))
  else ({| world := world s;
           inFlight := (inFlight s ++ [(idImageFile, referenceImageFile)])%list |},
        ok tt).

End Service.

(* ===================================================================== *)
(** ** The page ([Index.tsx]) *)
(* ===================================================================== *)

Inductive ProcessingState : Type :=
| idle | processing | success | error | warning.

Definition isProcessing (s : ProcessingState) : bool :=
  match s with processing => true | _ => false end.

(** [idImage && referenceImage && isServiceReady && processingState !== 'processing'],
    read as the condition of [disabled={!canVerify}]. *)
Definition canVerify {File : Type} (idImage referenceImage : option File)
    (isServiceReady : bool) (processingState : ProcessingState) : bool :=
  bool_decide (is_Some idImage) && bool_decide (is_Some referenceImage)
  && isServiceReady && negb (isProcessing processingState).

(* ===================================================================== *)
(** ** Traces, stub engines and the statements under test *)
(* ===================================================================== *)

Definition progressValues (trace : list Event) : list Z :=
  omap (fun e => match e with
                 | OnProgress _ progress => Some progress
                 | Enter _ => None
                 end) trace.

(** The events of a run that completes with a callback. *)
Definition completeTrace : list Event := [
  OnProgress "Validating image quality..." 5;
  Enter ValidateImageQuality;
  OnProgress "Loading images..." 10;
  Enter LoadIdImage;
  Enter LoadReferenceImage;
  OnProgress "Performing template matching..." 30;
  Enter PerformTemplateMatching;
  OnProgress "Extracting text labels..." 60;
  Enter ExtractTextLabels;
  OnProgress "Finalizing verification..." 90;
  OnProgress "Verification complete" 100
].

Definition withinUnit (x : Q) : Prop := (0 <= x <= 1)%Q.

(** Stub engines in the manner of a test double: files and images are names,
    the canvas of the gate hands back two pixels, the correlation and the
    recognition are constants. *)
Module Stub.

Definition loadImageFromFile (file : string) : Outcome string := ok file.
Definition brokenImage (file : string) : Outcome string := throw NonError.
Definition imageWidth (image : string) : Q := 640.
Definition imageHeight (image : string) : Q := 480.

(** A black pixel next to a white one, and two black pixels. *)
Definition sharpCanvas (image : string) : Outcome (list Z) :=
  ok [0; 0; 0; 255; 255; 255; 255; 255]%Z.
Definition flatCanvas (image : string) : Outcome (list Z) :=
  ok [0; 0; 0; 255; 0; 0; 0; 255]%Z.

Definition correlation (source template : string) (sourceSize templateSize : Q * Q)
  : Outcome Q := ok 0.9%Q.

Definition ocr : OcrData :=
  {| text := Extractor.sampleText; ocrConfidence := 90 |}.
Definition recognize (worker : unit) (file : string) : Outcome OcrData := ok ocr.

Definition onProgress (stage : string) (progress : Z) : Outcome unit := ok tt.

Definition ready : @Service unit :=
  {| tesseractWorker := Some tt; isOpenCVReady := true |}.
Definition start : @World unit := {| service := ready; events := [] |}.

Definition result : VerificationResult :=
  {| templateMatch := Matcher.matched 0.9;
     textExtraction := Extractor.extractFrom ocr;
     overall := aggregate (Matcher.matched 0.9) (Extractor.extractFrom ocr) |}.

Definition completed : @World unit :=
  {| service := ready; events := completeTrace |}.

(** The world when the gate has thrown. *)
Definition rejected : @World unit :=
  {| service := ready;
     events := [OnProgress "Validating image quality..." 5;
                Enter ValidateImageQuality] |}.

(** One run in flight on a service that is ready. *)
Definition busy : @Session string unit :=
  {| world := start; inFlight := [("id.png", "template.png")] |}.

End Stub.

(** The statements of the specification that the code does not meet, as they
    are worded. *)
Module AsSpecified.

(** Every confidence of a result lies in the unit interval, for a
    recognition confidence in [0, 100] and a correlation in [-1, 1]. *)
Definition confidencesWithinUnit : Prop :=
  forall (score : Q) (data : OcrData),
    (-1 <= score <= 1)%Q -> (0 <= ocrConfidence data <= 100)%Q ->
    let templateResult := Matcher.matched score in
    let textResult := Extractor.extractFrom data in
    withinUnit (TemplateMatch.confidence templateResult)
    /\ withinUnit (TextExtraction.confidence textResult)
    /\ withinUnit (Overall.confidence (aggregate templateResult textResult)).

(** A call of [verifyDocument] while a run is in flight throws. *)
Definition overlappingCallRejected : Prop :=
  forall (File Worker : Type) (s : @Session File Worker)
         (idImageFile referenceImageFile : File),
    inFlight s <> [] ->
    exists e, snd (callVerifyDocument s idImageFile referenceImageFile) = throw e.

(** Whatever is thrown inside the [try] block has a message, and the caller
    gets that message behind the prefix. *)
Definition rethrowKeepsMessage : Prop :=
  forall (File Image Worker : Type)
         (loadImageFromFile : File -> Outcome Image)
         (imageWidth imageHeight : Image -> Q)
         (analysisData : Image -> Outcome (list Z))
         (correlation : Image -> Image -> Q * Q -> Q * Q -> Outcome Q)
         (recognize : Worker -> File -> Outcome OcrData)
         (idImageFile referenceImageFile : File)
         (onProgress : option (string -> Z -> Outcome unit))
         (w w' : @World Worker) (e : Thrown),
    notInitialized (service w) = false ->
    verifyDocumentBody loadImageFromFile imageWidth imageHeight analysisData
      correlation recognize idImageFile referenceImageFile onProgress w
    = (w', throw e) ->
    exists message,
      e = ErrorInstance message
      /\ verifyDocument loadImageFromFile imageWidth imageHeight analysisData
           correlation recognize idImageFile referenceImageFile onProgress w
         = (w', throw (ErrorInstance ("Verification failed: " +:+ message))).

(** Every run that returns has reported the six percentages. *)
Definition everyRunReportsCheckpoints : Prop :=
  forall (File Image Worker : Type)
         (loadImageFromFile : File -> Outcome Image)
         (imageWidth imageHeight : Image -> Q)
         (analysisData : Image -> Outcome (list Z))
         (correlation : Image -> Image -> Q * Q -> Q * Q -> Outcome Q)
         (recognize : Worker -> File -> Outcome OcrData)
         (idImageFile referenceImageFile : File)
         (onProgress : option (string -> Z -> Outcome unit))
         (w w' : @World Worker) (r : VerificationResult),
    verifyDocument loadImageFromFile imageWidth imageHeight analysisData
      correlation recognize idImageFile referenceImageFile onProgress w
    = (w', ok r) ->
    progressValues (drop (length (events w)) (events w'))
    = [5; 10; 30; 60; 90; 100]%Z.

End AsSpecified.

(* ===================================================================== *)
(** ** The rest of the service and of the page *)
(* ===================================================================== *)

(** *** What the scan of the extractor looks at *)

Module ExtractorSpec.
Import Extractor.

(** A line mentions a label when, lower-cased and trimmed, it includes one of
    the phrases of the label. *)
Definition mentions (line : string) (lp : LabelPattern) : bool :=
  existsb (Js.includes (Js.trim (Js.toLowerCase line))) (patterns lp).

(** The labels a line mentions, in the order of the dictionary. *)
Definition labelsMentioned (line : string) : list string :=
  map label (List.filter (mentions line) labelPatterns).

(** No white space at either end. *)
Definition trimmed (value : string) : Prop := Js.trim value = value.

(** Recognised texts: a name given twice, and the lines of the sample text in
    another order. *)
Definition twoNamesText : string :=
  "Name: Ann" +:+ String Js.LF ("Name: Bob" +:+ String Js.LF "Sex: F").

Definition reorderedSampleText : string :=
  "Date of Birth" +:+
  String Js.LF ("01/01/1990" +:+ String Js.LF "Name: John Smith").

End ExtractorSpec.

(** *** Images for the gate *)

(** A black image on the analysis square. *)
Definition blackData : list Z :=
  Quality.render (fun _ => 0%Z) 0 (Z.to_nat Quality.pixels).

(** *** The events of a run without a callback *)

Definition stagesOnly : list Event := [
  Enter ValidateImageQuality;
  Enter LoadIdImage;
  Enter LoadReferenceImage;
  Enter PerformTemplateMatching;
  Enter ExtractTextLabels
].

Definition expectedTrace (onProgress : option (string -> Z -> Outcome unit))
  : list Event :=
  match onProgress with
  | Some _ => completeTrace
  | None => stagesOnly
  end.

(** *** [initialize], [initializeOpenCV] and [initializeTesseract] *)

(** A promise as its caller sees it: never settled, or settled. *)
Inductive Settlement (A : Type) : Type :=
| Pending
| Settled (outcome : Outcome A).
Arguments Pending {A}.
Arguments Settled {A} outcome.

(** What the browser does about OpenCV: whether [window.cv && window.cv.Mat]
    holds when [initializeOpenCV] is called; whether the [load] event of the
    script it appends fires; whether [window.cv] is set at that moment; and
    whether the runtime then calls [onRuntimeInitialized]. *)
Record OpenCVLoading : Type := {
  cvPresent : bool;
  scriptLoads : bool;
  cvDefinedOnLoad : bool;
  runtimeInitializes : bool
}.

Section Lifecycle.

Context {Worker : Type}.
Variable browser : OpenCVLoading.

(** [createWorker('eng')], awaited. *)
Variable createWorker : Outcome Worker.

(** [this.isOpenCVReady = true] *)
Definition setOpenCVReady (w : @World Worker) : @World Worker :=
  {| service := {| tesseractWorker := tesseractWorker (service w);
                   isOpenCVReady := true |};
     events := events w |}.

(** The promise has no [reject]: it resolves, at once or from
    [onRuntimeInitialized], or it stays pending. *)
Definition initializeOpenCV (w : @World Worker) : @World Worker * Settlement unit :=
  if cvPresent browser then (setOpenCVReady w, Settled (ok tt))
  else if scriptLoads browser then
    if cvDefinedOnLoad browser then
      if runtimeInitializes browser then (setOpenCVReady w, Settled (ok tt))
      else (w, Pending)
    else (w, Pending)
  else (w, Pending).

Definition initializeTesseract : @M Worker unit :=
  bind this (fun self =>
    if negb (bool_decide (is_Some (tesseractWorker self))) then
      bind (await createWorker) (fun worker => setWorker (Some worker))
    else ret tt).

Definition initialize (w : @World Worker) : @World Worker * Settlement unit :=
  match initializeOpenCV w with
  | (w1, Pending) => (w1, Pending)
  | (w1, Settled (inl e)) => (w1, Settled (throw e))
  | (w1, Settled (inr _)) =>
      let (w2, outcome) := initializeTesseract w1 in (w2, Settled outcome)
  end.

End Lifecycle.

(** *** The upload zone ([ImageUpload.tsx]) *)

Module Upload.

(** What the handlers read of a [File]. *)
Record UploadedFile : Type := {
  name : string;
  type : string;
  size : Z
}.

(** [file.type.startsWith('image/')] *)
Definition isImage (file : UploadedFile) : bool :=
  Js.startsWith (type file) "image/".

(** What a handler does with [onImageUpload]: it leaves it alone, or calls it
    with a file or with [null]. *)
Inductive Call : Type :=
| NotCalled
| Called (file : option UploadedFile).

(** [files.find(file => file.type.startsWith('image/'))] and the call *)
Definition handleDrop (files : list UploadedFile) : Call :=
  match List.find isImage files with
  | Some imageFile => Called (Some imageFile)
  | None => NotCalled
  end.

(** [e.target.files?.[0]] and the test *)
Definition handleFileSelect (files : list UploadedFile) : Call :=
  match files with
  | file :: _ => if isImage file then Called (Some file) else NotCalled
  | [] => NotCalled
  end.

End Upload.

(** *** The handlers of the page ([Index.tsx]) *)

(** [Math.round]: the nearest integer, the larger one at a tie. *)
Definition Math_round (x : Q) : Z := Qfloor (x + 0.5)%Q.

Module Page.

Record Toast : Type := {
  title : string;
  description : string;
  variant : string
}.

Record State {File : Type} : Type := {
  idImage : option File;
  referenceImage : option File;
  processingMessage : string;
  processingDetails : string;
  processingState : ProcessingState;
  verificationResult : option VerificationResult;
  isServiceReady : bool;
  toasts : list Toast
}.
Arguments State File : clear implicits.

Section Handlers.

Context {File Image Worker : Type}.
Variable loadImageFromFile : File -> Outcome Image.
Variable imageWidth imageHeight : Image -> Q.
Variable analysisData : Image -> Outcome (list Z).
Variable correlation : Image -> Image -> Q * Q -> Q * Q -> Outcome Q.
Variable recognize : Worker -> File -> Outcome OcrData.

Definition setProcessing (state : ProcessingState) (message details : string)
    (p : State File) : State File :=
  {| idImage := idImage p;
     referenceImage := referenceImage p;
     processingMessage := message;
     processingDetails := details;
     processingState := state;
     verificationResult := verificationResult p;
     isServiceReady := isServiceReady p;
     toasts := toasts p |}.

Definition setProcessingState (state : ProcessingState) (p : State File)
  : State File :=
  setProcessing state (processingMessage p) (processingDetails p) p.

Definition setVerificationResult (result : option VerificationResult)
    (p : State File) : State File :=
  {| idImage := idImage p;
     referenceImage := referenceImage p;
     processingMessage := processingMessage p;
     processingDetails := processingDetails p;
     processingState := processingState p;
     verificationResult := result;
     isServiceReady := isServiceReady p;
     toasts := toasts p |}.

Definition toast (t : Toast) (p : State File) : State File :=
  {| idImage := idImage p;
     referenceImage := referenceImage p;
     processingMessage := processingMessage p;
     processingDetails := processingDetails p;
     processingState := processingState p;
     verificationResult := verificationResult p;
     isServiceReady := isServiceReady p;
     toasts := (toasts p ++ [t])%list |}.

(** The callback the page hands to [verifyDocument]:
    [setProcessingMessage(stage)] and
    [setProcessingDetails(`Progress: ${progress}%`)]. *)
Definition showProgress (p : State File) (e : Event) : State File :=
  match e with
  | OnProgress stage progress =>
      setProcessing (processingState p) stage
                    ("Progress: " +:+ pretty progress +:+ "%") p
  | Enter _ => p
  end.

Definition onProgress (stage : string) (progress : Z) : Outcome unit := ok tt.

Definition missingImages : Toast :=
  {| title := "Missing Images";
     description := "Please upload both the ID image and reference template.";
     variant := "destructive" |}.

Definition serviceNotReady : Toast :=
  {| title := "Service Not Ready";
     description := "Please wait for the verification services to initialize.";
     variant := "destructive" |}.

Definition verificationError : Toast :=
  {| title := "Verification Error";
     description := "An error occurred during verification. Please try again.";
     variant := "destructive" |}.

Definition verdictToast (isValid : bool) : Toast :=
  {| title := if isValid then "Verification Success" else "Verification Warning";
     description :=
       if isValid then "Document verification passed all checks."
       else "Document verification completed with some issues.";
     variant := if isValid then "default" else "destructive" |}.

(** The [try] branch after the run. *)
Definition showResult (result : VerificationResult) (p : State File) : State File :=
  let isValid := Overall.isValid (overall result) in
  toast (verdictToast isValid)
    (setProcessing
       (if isValid then success else warning)
       (if isValid then "Verification completed successfully!"
        else "Verification completed with warnings")
       ("Overall confidence: " +:+
        pretty (Math_round (Double.mul (Overall.confidence (overall result)) 100))
        +:+ "%")
       (setVerificationResult (Some result) p)).

(** The [catch] branch. *)
Definition showError (thrown : Thrown) (p : State File) : State File :=
  toast verificationError
    (setProcessing error "Verification failed"
       (match thrown with
        | ErrorInstance message => message
        | NonError => "Unknown error occurred"
        end) p).

(** [handleVerification]: the page and the service before, the page and the
    service after. The writes of the callback are those of the events the run
    has added. *)
Definition handleVerification (p : State File) (w : @World Worker)
  : State File * @World Worker :=
  match idImage p, referenceImage p with
  | Some idImageFile, Some referenceImageFile =>
      if negb (isServiceReady p) then (toast serviceNotReady p, w)
      else
        let started := setProcessingState processing (setVerificationResult None p) in
        let (w', outcome) :=
          verifyDocument loadImageFromFile imageWidth imageHeight analysisData
            correlation recognize idImageFile referenceImageFile
            (Some onProgress) w in
        let shown :=
          fold_left showProgress (drop (length (events w)) (events w')) started in
        match outcome with
        | inr result => (showResult result shown, w')
        | inl thrown => (showError thrown shown, w')
        end
  | _, _ => (toast missingImages p, w)
  end.

(** [resetVerification] *)
Definition resetVerification (p : State File) : State File :=
  {| idImage := None;
     referenceImage := None;
     processingMessage := "";
     processingDetails := "";
     processingState := idle;
     verificationResult := None;
     isServiceReady := isServiceReady p;
     toasts := toasts p |}.

(** [canVerify] of a state of the page. *)
Definition verifyEnabled (p : State File) : bool :=
  canVerify (idImage p) (referenceImage p) (isServiceReady p) (processingState p).

(** The initialisation effect once [initialize] has returned: the page is
    ready and says so, and a timer of two seconds is set. *)
Definition servicesReady (p : State File) : State File :=
  setProcessing success "Services ready"
    "OpenCV and Tesseract.js loaded successfully"
    {| idImage := idImage p;
       referenceImage := referenceImage p;
       processingMessage := processingMessage p;
       processingDetails := processingDetails p;
       processingState := processingState p;
       verificationResult := verificationResult p;
       isServiceReady := true;
       toasts := toasts p |}.

(** The callback of that timer: [setProcessingState('idle')], whatever the
    page is doing by then. *)
Definition idleTimer (p : State File) : State File := setProcessingState idle p.

(** [handleVerification] up to its [await]: the two guards, the two writes
    and the call of [verifyDocument], whose run is then in flight; a call
    that the service refuses is caught at once. *)
Definition startVerification (p : State File) (s : @Session File Worker)
  : State File * @Session File Worker :=
  match idImage p, referenceImage p with
  | Some idImageFile, Some referenceImageFile =>
      if negb (isServiceReady p) then (toast serviceNotReady p, s)
      else
        let started := setProcessingState processing (setVerificationResult None p) in
        match callVerifyDocument s idImageFile referenceImageFile with
        | (s', inr _) => (started, s')
        | (s', inl thrown) => (showError thrown started, s')
        end
  | _, _ => (toast missingImages p, s)
  end.

End Handlers.

End Page.

(** *** More stub engines *)

Module Stub2.

Definition terminate (worker : unit) : Outcome unit := ok tt.

(** The canvas hands back the black image. *)
Definition blackCanvas (image : string) : Outcome (list Z) := ok blackData.

(** Two pixels, opaque and transparent. *)
Definition opaquePixels : list Z := [10; 20; 30; 255; 200; 200; 200; 255]%Z.
Definition clearPixels : list Z := [10; 20; 30; 0; 200; 200; 200; 7]%Z.

Definition twoNames : OcrData :=
  {| text := ExtractorSpec.twoNamesText; ocrConfidence := 90 |}.
Definition reorderedSample : OcrData :=
  {| text := ExtractorSpec.reorderedSampleText; ocrConfidence := 90 |}.

(** The entry of the dictionary for the name. *)
Definition nameLabel : Extractor.LabelPattern :=
  {| Extractor.label := "Name";
     Extractor.patterns := ["name"; "first name"; "last name"; "full name"] |}.

Definition page : Page.State string :=
  {| Page.idImage := Some "id.png";
     Page.referenceImage := Some "template.png";
     Page.processingMessage := "";
     Page.processingDetails := "";
     Page.processingState := idle;
     Page.verificationResult := None;
     Page.isServiceReady := true;
     Page.toasts := [] |}.

(** The service of the stubs with no run in flight. *)
Definition quiet : @Session string unit :=
  {| world := Stub.start; inFlight := [] |}.

(** The world after a run without a callback. *)
Definition silent : @World unit :=
  {| service := Stub.ready; events := stagesOnly |}.

Definition emptyPage : Page.State string :=
  {| Page.idImage := None;
     Page.referenceImage := Some "template.png";
     Page.processingMessage := "";
     Page.processingDetails := "";
     Page.processingState := idle;
     Page.verificationResult := None;
     Page.isServiceReady := true;
     Page.toasts := [] |}.

End Stub2.

(* ===================================================================== *)
(** * Properties *)
(* ===================================================================== *)

(** ** Numbers *)

Lemma Qltb_lt (x y : Q) : Qltb x y = true <-> (x < y)%Q.
Proof.
  unfold Qltb. rewrite negb_true_iff.
  destruct (Qle_bool y x) eqn:E.
  - apply Qle_bool_iff in E. split; [discriminate | intros H; lra].
  - split; [intros _ | reflexivity].
    destruct (Qlt_le_dec x y) as [Hlt | Hle]; [exact Hlt |].
    apply Qle_bool_iff in Hle. congruence.
Qed.

Lemma Qltb_ge (x y : Q) : Qltb x y = false <-> (y <= x)%Q.
Proof.
  unfold Qltb. rewrite negb_false_iff. apply Qle_bool_iff.
Qed.

Lemma Math_min_spec (x y : Q) :
  (Extractor.Math_min x y <= x)%Q /\ (Extractor.Math_min x y <= y)%Q
  /\ (Extractor.Math_min x y = x \/ Extractor.Math_min x y = y).
Proof.
  unfold Extractor.Math_min. destruct (Qle_bool x y) eqn:E.
  - apply Qle_bool_iff in E. repeat split; [lra | lra | now left].
  - assert (y < x)%Q by (apply Qltb_lt; unfold Qltb; now rewrite E).
    repeat split; [lra | lra | now right].
Qed.

(** ** Rounding to the nearest double *)

Section DoubleFacts.
Import Double.
Local Open Scope Q_scope.

Lemma pow2_pos (e : Z) : 0 < pow2 e.
Proof. apply Qpower_0_lt. reflexivity. Qed.

Lemma pow2_le (a b : Z) : (a <= b)%Z -> pow2 a <= pow2 b.
Proof. intros H. apply Qpower_le_compat_l; [exact H | discriminate]. Qed.

Lemma pow2_lt (a b : Z) : (a < b)%Z -> pow2 a < pow2 b.
Proof. intros H. apply Qpower_lt_compat_l; [exact H | reflexivity]. Qed.

Lemma pow2_plus (a b : Z) : pow2 (a + b) == pow2 a * pow2 b.
Proof. apply Qpower_plus. discriminate. Qed.

Lemma pow2_succ (a : Z) : pow2 (a + 1) == 2 * pow2 a.
Proof. rewrite pow2_plus. change (pow2 1) with 2. ring. Qed.

Lemma pow2_inject (a : Z) : (0 <= a)%Z -> pow2 a == inject_Z (2 ^ a).
Proof. intros H. unfold pow2. rewrite Zpower_Qpower by exact H. reflexivity. Qed.

(** The bounds of [Z.log2] on a numerator or a denominator. *)
Lemma log2_bounds (n : Z) :
  (0 < n)%Z -> pow2 (Z.log2 n) <= inject_Z n < pow2 (Z.log2 n + 1).
Proof.
  intros Hn. destruct (Z.log2_spec n Hn) as [Hlow Hhigh].
  pose proof (Z.log2_nonneg n) as Hnonneg.
  rewrite !pow2_inject by lia.
  rewrite <- Zle_Qle, <- Zlt_Qlt. replace (Z.log2 n + 1)%Z with (Z.succ (Z.log2 n)) by lia.
  split; assumption.
Qed.

Lemma exponent_spec (x : Q) :
  0 < x -> pow2 (exponent x) <= x < pow2 (exponent x + 1).
Proof.
  intros Hx. destruct x as [n d].
  assert (0 < n)%Z as Hn by (unfold Qlt in Hx; simpl in Hx; lia).
  destruct (log2_bounds n Hn) as [Hn1 Hn2].
  destruct (log2_bounds (Zpos d) ltac:(lia)) as [Hd1 Hd2].
  assert (n # d == inject_Z n / inject_Z (Zpos d)) as Hx' by apply Qmake_Qdiv.
  assert (0 < inject_Z (Zpos d)) as Hdpos by (rewrite <- (Zlt_Qlt 0); lia).
  unfold exponent. cbn [Qnum Qden].
  set (a := Z.log2 n) in *. set (b := Z.log2 (Zpos d)) in *.
  pose proof (pow2_pos a). pose proof (pow2_pos b). pose proof (pow2_pos (a - b)).
  assert (pow2 (a - b) * pow2 b == pow2 a) as Hab
    by (rewrite <- pow2_plus; replace (a - b + b)%Z with a by lia; reflexivity).
  assert (pow2 (a - b + 1) == 2 * pow2 (a - b)) as Hs1 by apply pow2_succ.
  assert (pow2 (a - b - 1 + 1) == pow2 (a - b)) as Hs2
    by (replace (a - b - 1 + 1)%Z with (a - b)%Z by lia; reflexivity).
  assert (2 * pow2 (a - b - 1) == pow2 (a - b)) as Hs3
    by (rewrite <- pow2_succ; exact Hs2).
  assert (pow2 (b + 1) == 2 * pow2 b) as Hs4 by apply pow2_succ.
  assert (pow2 (a + 1) == 2 * pow2 a) as Hs5 by apply pow2_succ.
  set (X := n # d) in *. set (D := inject_Z (Zpos d)) in *.
  set (N := inject_Z n) in *.
  assert (X * D == N) as HX by (rewrite Hx'; field; lra).
  destruct (Qle_bool (pow2 (a - b)) X) eqn:E.
  - apply Qle_bool_iff in E. split; [exact E |].
    rewrite Hs1.
    (* X * D = N < 2 * 2^a = 2 * 2^(a-b) * 2^b <= 2 * 2^(a-b) * D *)
    apply (Qmult_lt_r _ _ D Hdpos). rewrite HX. nra.
  - assert (~ pow2 (a - b) <= X) as E'
      by (intros H'; apply Qle_bool_iff in H'; congruence).
    apply Qnot_le_lt in E'. rewrite Hs2. split; [| exact E'].
    apply (Qmult_le_r _ _ D Hdpos). rewrite HX. nra.
Qed.

Lemma exponent_le (x y : Q) : 0 < x -> x <= y -> (exponent x <= exponent y)%Z.
Proof.
  intros Hx Hxy.
  destruct (exponent_spec x Hx) as [Hx1 _].
  destruct (exponent_spec y ltac:(lra)) as [_ Hy2].
  destruct (Z.le_gt_cases (exponent x) (exponent y)) as [H | H]; [exact H |].
  pose proof (pow2_le (exponent y + 1) (exponent x) ltac:(lia)). lra.
Qed.

(** [nearestEven] is within one half of its argument. *)
Lemma nearestEven_near (q : Q) :
  inject_Z (nearestEven q) - (1 # 2) <= q <= inject_Z (nearestEven q) + (1 # 2).
Proof.
  unfold nearestEven.
  pose proof (Qfloor_le q) as Hlow. pose proof (Qlt_floor q) as Hhigh.
  rewrite inject_Z_plus in Hhigh. change (inject_Z 1) with 1 in Hhigh.
  destruct (Qcompare_spec (q - inject_Z (Qfloor q)) (1 # 2)) as [E | E | E].
  - destruct (Z.even (Qfloor q)); [| rewrite inject_Z_plus; change (inject_Z 1) with 1];
      split; lra.
  - split; lra.
  - rewrite inject_Z_plus; change (inject_Z 1) with 1. split; lra.
Qed.

Lemma nearestEven_inject (n : Z) : nearestEven (inject_Z n) = n.
Proof.
  unfold nearestEven. rewrite Qfloor_Z.
  destruct (Qcompare_spec (inject_Z n - inject_Z n) (1 # 2)) as [E | E | E];
    [lra | reflexivity | lra].
Qed.

Lemma nearestEven_wd (p q : Q) : p == q -> nearestEven p = nearestEven q.
Proof.
  intros H. unfold nearestEven. rewrite (Qfloor_comp _ _ H).
  assert (Qcompare (p - inject_Z (Qfloor q)) (1 # 2)
          = Qcompare (q - inject_Z (Qfloor q)) (1 # 2)) as ->; [| reflexivity].
  apply Qcompare_comp; [| reflexivity].
  unfold Qminus. apply Qplus_comp; [exact H | reflexivity].
Qed.

Lemma nearestEven_le (p q : Q) : p <= q -> (nearestEven p <= nearestEven q)%Z.
Proof.
  intros Hpq.
  destruct (Z.le_gt_cases (nearestEven p) (nearestEven q)) as [H | H]; [exact H |].
  exfalso.
  pose proof (nearestEven_near p) as [Hp _]. pose proof (nearestEven_near q) as [_ Hq].
  assert (inject_Z (nearestEven q) + 1 <= inject_Z (nearestEven p)) as Hgap.
  { change 1 with (inject_Z 1). rewrite <- inject_Z_plus, <- Zle_Qle. lia. }
  (* p = q = nearestEven q + 1/2, a tie: both arguments have the same floor *)
  assert (p == inject_Z (nearestEven q) + (1 # 2)) as Hp' by lra.
  assert (q == p) as Hq' by lra.
  pose proof (nearestEven_wd q p Hq'). lia.
Qed.

Lemma ulp_pos (x : Q) : 0 < ulp x.
Proof. apply pow2_pos. Qed.

(** A positive number is below [2 ^ 53] units in the last place, and at least
    [2 ^ 52] of them when it is not subnormal. *)
Lemma scaled_lt (x : Q) : 0 < x -> x / ulp x < inject_Z (2 ^ 53).
Proof.
  intros Hx. destruct (exponent_spec x Hx) as [_ Hhigh].
  pose proof (ulp_pos x) as Hu.
  apply Qlt_shift_div_r; [exact Hu |].
  unfold ulp in *. set (e := Z.max (exponent x) (-1022)) in *.
  rewrite <- (pow2_inject 53) by lia. rewrite <- pow2_plus.
  replace (53 + (e - 52))%Z with (e + 1)%Z by lia.
  pose proof (pow2_le (exponent x + 1) (e + 1) ltac:(lia)). lra.
Qed.

Lemma scaled_ge (x : Q) :
  0 < x -> (-1022 <= exponent x)%Z -> inject_Z (2 ^ 52) <= x / ulp x.
Proof.
  intros Hx He. destruct (exponent_spec x Hx) as [Hlow _].
  pose proof (ulp_pos x) as Hu.
  apply Qle_shift_div_l; [exact Hu |].
  unfold ulp in *. rewrite Z.max_l by lia.
  rewrite <- (pow2_inject 52) by lia. rewrite <- pow2_plus.
  replace (52 + (exponent x - 52))%Z with (exponent x) by lia. exact Hlow.
Qed.

Lemma roundPositive_le_pow2 (x : Q) :
  0 < x -> roundPositive x <= pow2 (Z.max (exponent x) (-1022) + 1).
Proof.
  intros Hx. unfold roundPositive.
  pose proof (ulp_pos x) as Hu.
  assert (nearestEven (x / ulp x) <= 2 ^ 53)%Z as Hn.
  { rewrite <- (nearestEven_inject (2 ^ 53)). apply nearestEven_le.
    apply Qlt_le_weak, scaled_lt, Hx. }
  rewrite Zle_Qle in Hn.
  assert (pow2 (Z.max (exponent x) (-1022) + 1) == inject_Z (2 ^ 53) * ulp x) as ->.
  { unfold ulp. rewrite <- (pow2_inject 53) by lia. rewrite <- pow2_plus.
    replace (53 + (Z.max (exponent x) (-1022) - 52))%Z
      with (Z.max (exponent x) (-1022) + 1)%Z by lia. reflexivity. }
  apply Qmult_le_compat_r; [exact Hn | lra].
Qed.

Lemma roundPositive_ge_pow2 (x : Q) :
  0 < x -> (-1022 <= exponent x)%Z -> pow2 (exponent x) <= roundPositive x.
Proof.
  intros Hx He. unfold roundPositive.
  pose proof (ulp_pos x) as Hu.
  assert (2 ^ 52 <= nearestEven (x / ulp x))%Z as Hn.
  { rewrite <- (nearestEven_inject (2 ^ 52)). apply nearestEven_le.
    apply scaled_ge; assumption. }
  rewrite Zle_Qle in Hn.
  assert (pow2 (exponent x) == inject_Z (2 ^ 52) * ulp x) as ->.
  { unfold ulp. rewrite Z.max_l by lia.
    rewrite <- (pow2_inject 52) by lia. rewrite <- pow2_plus.
    replace (52 + (exponent x - 52))%Z with (exponent x) by lia. reflexivity. }
  apply Qmult_le_compat_r; [exact Hn | lra].
Qed.

Lemma roundPositive_nonneg (x : Q) : 0 < x -> 0 <= roundPositive x.
Proof.
  intros Hx. unfold roundPositive. pose proof (ulp_pos x) as Hu.
  assert (0 <= nearestEven (x / ulp x))%Z as Hn.
  { rewrite <- (nearestEven_inject 0). apply nearestEven_le.
    apply Qlt_le_weak, Qlt_shift_div_l; [exact Hu |].
    change (inject_Z 0) with 0. lra. }
  rewrite Zle_Qle in Hn. change (inject_Z 0) with 0 in Hn.
  apply Qmult_le_0_compat; lra.
Qed.

Lemma roundPositive_le (x y : Q) :
  0 < x -> x <= y -> roundPositive x <= roundPositive y.
Proof.
  intros Hx Hxy. assert (0 < y) as Hy by lra.
  pose proof (exponent_le x y Hx Hxy) as He.
  destruct (Z.eq_dec (Z.max (exponent x) (-1022)) (Z.max (exponent y) (-1022)))
    as [Heq | Hne].
  - assert (ulp x = ulp y) as Hu by (unfold ulp; rewrite Heq; reflexivity).
    unfold roundPositive. rewrite Hu. pose proof (ulp_pos y) as Hpos.
    apply Qmult_le_compat_r; [| lra].
    rewrite <- Zle_Qle. apply nearestEven_le.
    apply Qmult_le_compat_r; [exact Hxy |].
    apply Qlt_le_weak, Qinv_lt_0_compat, Hpos.
  - pose proof (roundPositive_le_pow2 x Hx) as Hupper.
    pose proof (roundPositive_ge_pow2 y Hy ltac:(lia)) as Hlower.
    pose proof (pow2_le (Z.max (exponent x) (-1022) + 1) (exponent y) ltac:(lia)).
    lra.
Qed.

Lemma round_0 : round 0 = 0.
Proof. reflexivity. Qed.

Lemma round_sign (x : Q) :
  (0 < x -> round x == roundPositive x)
  /\ (x == 0 -> round x = 0)
  /\ (x < 0 -> round x == - roundPositive (- x)).
Proof.
  destruct x as [[| n | n] d]; unfold round; cbn [Qnum].
  - repeat split; intros H; try reflexivity; unfold Qlt in H; simpl in H; lia.
  - repeat split; intros H; try apply Qred_correct;
      unfold Qlt, Qeq in H; simpl in H; lia.
  - repeat split; intros H; try apply Qred_correct;
      unfold Qlt, Qeq in H; simpl in H; lia.
Qed.

(** Rounding keeps the order. *)
Lemma round_le (x y : Q) : x <= y -> round x <= round y.
Proof.
  intros Hxy.
  destruct (round_sign x) as (Hxp & Hx0 & Hxn).
  destruct (round_sign y) as (Hyp & Hy0 & Hyn).
  destruct (Q_dec x 0) as [[Hx | Hx] | Hx], (Q_dec y 0) as [[Hy | Hy] | Hy].
  - rewrite (Hxn Hx), (Hyn Hy).
    pose proof (roundPositive_le (- y) (- x) ltac:(lra) ltac:(lra)). lra.
  - rewrite (Hxn Hx), (Hyp Hy).
    pose proof (roundPositive_nonneg (- x) ltac:(lra)).
    pose proof (roundPositive_nonneg y Hy). lra.
  - rewrite (Hxn Hx), (Hy0 Hy).
    pose proof (roundPositive_nonneg (- x) ltac:(lra)). lra.
  - lra.
  - rewrite (Hxp Hx), (Hyp Hy). apply roundPositive_le; assumption.
  - lra.
  - lra.
  - rewrite (Hx0 Hx), (Hyp Hy). apply roundPositive_nonneg, Hy.
  - rewrite (Hx0 Hx), (Hy0 Hy). lra.
Qed.

(** A number minus itself is zero, rounded or not. *)
Lemma sub_diag (x : Q) : sub x x = 0.
Proof.
  unfold sub, round.
  assert (Qnum (x - x) = 0%Z) as -> by (destruct x as [n d]; simpl; lia).
  reflexivity.
Qed.
End DoubleFacts.


(** ** The quality gate *)

Section CountFacts.
Import Quality.

Lemma countFrom_acc (p : Z -> bool) (n : nat) :
  forall from acc, countFrom p from n acc = (acc + count p from n)%Z.
Proof.
  unfold count. induction n as [| n IH]; intros from acc; simpl.
  - lia.
  - rewrite (IH _ (if p from then acc + 1 else acc)%Z).
    rewrite (IH _ (if p from then 0 + 1 else 0)%Z).
    destruct (p from); lia.
Qed.

Lemma count_succ (p : Z -> bool) (from : Z) (n : nat) :
  count p from (S n) = ((if p from then 1 else 0) + count p (from + 1) n)%Z.
Proof.
  unfold count at 1. simpl. rewrite countFrom_acc. destruct (p from); lia.
Qed.

Lemma count_ext (p q : Z -> bool) (n : nat) :
  forall from,
    (forall j, (from <= j < from + Z.of_nat n)%Z -> p j = q j) ->
    count p from n = count q from n.
Proof.
  induction n as [| n IH]; intros from H; [reflexivity |].
  rewrite !count_succ, (H from) by lia.
  rewrite (IH (from + 1)%Z); [reflexivity |].
  intros j Hj. apply H. lia.
Qed.

Lemma count_le_mono (p q : Z -> bool) (n : nat) :
  forall from,
    (forall j, (from <= j < from + Z.of_nat n)%Z -> q j = true -> p j = true) ->
    (count q from n <= count p from n)%Z.
Proof.
  induction n as [| n IH]; intros from H; [reflexivity |].
  rewrite !count_succ.
  specialize (IH (from + 1)%Z).
  assert (count q (from + 1) n <= count p (from + 1) n)%Z as Hrest
    by (apply IH; intros j Hj; apply H; lia).
  specialize (H from).
  destruct (q from), (p from); lia.
Qed.

Lemma count_none (p : Z -> bool) (n : nat) (from : Z) :
  (forall j, (from <= j < from + Z.of_nat n)%Z -> p j = false) ->
  count p from n = 0%Z.
Proof.
  intros H. rewrite (count_ext p (fun _ => false) n from H).
  clear H. revert from. induction n as [| n IH]; intros from; [reflexivity |].
  rewrite count_succ, IH. reflexivity.
Qed.

Lemma count_bounds (p : Z -> bool) (n : nat) :
  forall from, (0 <= count p from n <= Z.of_nat n)%Z.
Proof.
  induction n as [| n IH]; intros from.
  - unfold count; simpl; lia.
  - rewrite count_succ. specialize (IH (from + 1)%Z).
    destruct (p from); lia.
Qed.

(** The loop of the gate visits every pixel but the last, in array order,
    and has fuel to spare: it stops on its own condition. *)
Lemma edgeLoop_count (data : list Z) (npix : Z) :
  Z.of_nat (length data) = (4 * npix)%Z ->
  forall (m fuel : nat) (k acc : Z),
    (0 <= k)%Z -> (k + Z.of_nat m + 1 = npix)%Z -> (m <= fuel)%nat ->
    edgeLoop fuel data (4 * k) acc
    = countFrom (fun j => differs data (4 * j)) k m acc.
Proof.
  intros Hlen. induction m as [| m IH]; intros fuel k acc Hk Hm Hfuel.
  - destruct fuel as [| fuel]; simpl; [reflexivity |].
    destruct (Z.ltb_spec (4 * k) (Z.of_nat (length data) - 4)); [lia | reflexivity].
  - destruct fuel as [| fuel]; [lia |]. simpl.
    destruct (Z.ltb_spec (4 * k) (Z.of_nat (length data) - 4)); [| lia].
    replace (4 * k + 4)%Z with (4 * (k + 1))%Z by lia.
    apply IH; lia.
Qed.

Lemma edgeStrength_count (data : list Z) (npix : Z) :
  (1 <= npix)%Z ->
  Z.of_nat (length data) = (4 * npix)%Z ->
  edgeStrength data
  = count (fun j => differs data (4 * j)) 0 (Z.to_nat (npix - 1)).
Proof.
  intros Hn Hlen. unfold edgeStrength, count.
  change 0%Z with (4 * 0)%Z at 1.
  apply (edgeLoop_count data npix Hlen); lia.
Qed.

End CountFacts.

Section GateFacts.
Import Quality.

(** The pixel count of the analysis square, as the loop computes it. *)
Lemma analysis_pixel_count : Double.div (inject_Z (4 * pixels)) 4 = 160000%Q.
Proof. vm_compute. reflexivity. Qed.

Lemma edgeRatio_value (data : list Z) :
  Z.of_nat (length data) = (4 * pixels)%Z ->
  edgeRatio data = Double.div (inject_Z (edgeStrength data)) 160000.
Proof.
  intros Hlen. unfold edgeRatio. rewrite Hlen, analysis_pixel_count. reflexivity.
Qed.

(** Of the quotients by 160000, those of the counts below 16000 are the ones
    below the double 0.1. *)
Lemma edgeRatio_lt (data : list Z) :
  Z.of_nat (length data) = (4 * pixels)%Z ->
  (edgeRatio data < Double.round 0.1)%Q <-> (edgeStrength data < 16000)%Z.
Proof.
  intros Hlen. rewrite (edgeRatio_value data Hlen). unfold Double.div.
  set (E := edgeStrength data).
  assert (Double.round (15999 / 160000) < Double.round 0.1)%Q as Hbelow
    by (vm_compute; reflexivity).
  assert (Double.round 0.1 <= Double.round (16000 / 160000))%Q as Hat
    by (vm_compute; discriminate).
  split.
  - intros Hlt. destruct (Z.lt_ge_cases E 16000) as [H | H]; [exact H |].
    exfalso. rewrite Zle_Qle in H. change (inject_Z 16000) with 16000%Q in H.
    assert (16000 / 160000 <= inject_Z E / 160000)%Q as Hle
      by (apply Qmult_le_compat_r; [exact H | discriminate]).
    apply round_le in Hle. lra.
  - intros Hlt. assert (E <= 15999)%Z as H by lia.
    rewrite Zle_Qle in H. change (inject_Z 15999) with 15999%Q in H.
    assert (inject_Z E / 160000 <= 15999 / 160000)%Q as Hle
      by (apply Qmult_le_compat_r; [exact H | discriminate]).
    apply round_le in Hle. lra.
Qed.

Lemma checkData_decides (data : list Z) :
  Z.of_nat (length data) = (4 * pixels)%Z ->
  checkData data
  = if Qltb (edgeRatio data) (Double.round 0.1)
    then throw (ErrorInstance lowQualityMessage) else ok tt.
Proof.
  intros Hlen. destruct data as [| byte data]; [| reflexivity].
  exfalso. change (0 = 640000)%Z in Hlen. discriminate.
Qed.

Lemma checkData_throws (data : list Z) :
  Z.of_nat (length data) = (4 * pixels)%Z ->
  checkData data = throw (ErrorInstance lowQualityMessage)
  <-> (edgeStrength data < 16000)%Z.
Proof.
  intros Hlen. rewrite <- (edgeRatio_lt data Hlen), <- Qltb_lt.
  rewrite (checkData_decides data Hlen).
  destruct (Qltb (edgeRatio data) (Double.round 0.1)); split;
    intros H; try reflexivity; discriminate.
Qed.

Lemma checkData_passes (data : list Z) :
  Z.of_nat (length data) = (4 * pixels)%Z ->
  checkData data = ok tt <-> (16000 <= edgeStrength data)%Z.
Proof.
  intros Hlen. pose proof (checkData_throws data Hlen) as H.
  rewrite (checkData_decides data Hlen) in *.
  destruct (Qltb (edgeRatio data) (Double.round 0.1)).
  - split; [discriminate |]. intros Hge.
    assert (edgeStrength data < 16000)%Z by (apply H; reflexivity). lia.
  - split; [| reflexivity]. intros _.
    destruct (Z.lt_ge_cases (edgeStrength data) 16000) as [Hlt | Hge]; [| exact Hge].
    apply H in Hlt. discriminate.
Qed.

Lemma luminance_same (data : list Z) (i i' : Z) :
  (forall j, (0 <= j < 3)%Z ->
             data !! Z.to_nat (i + j) = data !! Z.to_nat (i' + j)) ->
  luminance data i = luminance data i'.
Proof.
  intros H. unfold luminance, sample.
  rewrite <- (Z.add_0_r i) at 1. rewrite <- (Z.add_0_r i') at 1.
  rewrite !H by lia. reflexivity.
Qed.

Lemma differs_same (data : list Z) (i : Z) :
  luminance data i = luminance data (i + 4) -> differs data i = false.
Proof.
  intros H. unfold differs. rewrite H, sub_diag. reflexivity.
Qed.

Lemma flatColor_no_edge (data : list Z) :
  Z.of_nat (length data) = (4 * pixels)%Z ->
  flatColor data -> edgeStrength data = 0%Z.
Proof.
  intros Hlen Hflat.
  rewrite (edgeStrength_count data pixels) by (unfold pixels, analysisSize; lia || exact Hlen).
  apply count_none. intros j Hj. apply differs_same.
  assert (forall k, (0 <= k < pixels)%Z -> luminance data (4 * k) = luminance data 0) as Hl.
  { intros k Hk. apply luminance_same. intros j' Hj'.
    rewrite (Hflat k j' Hk Hj'). reflexivity. }
  replace (4 * j + 4)%Z with (4 * (j + 1))%Z by lia.
  rewrite !Hl; [reflexivity | |]; unfold pixels, analysisSize in *; lia.
Qed.

Lemma checkerboard_edges (data : list Z) :
  Z.of_nat (length data) = (4 * pixels)%Z ->
  checkerboard data -> (159600 <= edgeStrength data)%Z.
Proof.
  intros Hlen Hcb.
  rewrite (edgeStrength_count data pixels) by (unfold pixels, analysisSize; lia || exact Hlen).
  assert (count hasRightNeighbour 0 (Z.to_nat (pixels - 1)) = 159600%Z) as <-
    by (vm_compute; reflexivity).
  apply count_le_mono. intros j Hj Hright.
  unfold hasRightNeighbour in Hright. apply negb_true_iff, Z.eqb_neq in Hright.
  unfold pixels, analysisSize in *.
  rewrite (Z.div_mod j 400) at 1 by lia.
  pose proof (Z.mod_pos_bound j 400 ltac:(lia)).
  apply Hcb; unfold analysisSize; [| lia].
  split; [apply Z.div_pos; lia | apply Z.div_lt_upper_bound; lia].
Qed.

(** The loop reads inside the array. *)
Lemma loop_reads_in_range (data : list Z) (npix k : Z) :
  Z.of_nat (length data) = (4 * npix)%Z ->
  (0 <= k)%Z -> (4 * k < Z.of_nat (length data) - 4)%Z ->
  is_Some (data !! Z.to_nat (4 * k)) /\ is_Some (data !! Z.to_nat (4 * k + 4 + 2)).
Proof.
  intros Hlen Hk Hloop. split; apply lookup_lt_is_Some; lia.
Qed.

End GateFacts.

Section RenderFacts.
Import Quality.

Lemma render_length (grey : Z -> Z) (n : nat) :
  forall from, length (render grey from n) = (4 * n)%nat.
Proof.
  induction n as [| n IH]; intros from; [reflexivity |].
  simpl. rewrite IH. lia.
Qed.

Lemma render_lookup (grey : Z -> Z) (n : nat) :
  forall from i j,
    (0 <= i < Z.of_nat n)%Z -> (0 <= j < 3)%Z ->
    render grey from n !! Z.to_nat (4 * i + j) = Some (grey (from + i)%Z).
Proof.
  induction n as [| n IH]; intros from i j Hi Hj; [lia |].
  destruct (Z.eq_dec i 0%Z) as [-> | Hne].
  - rewrite Z.add_0_r.
    assert (j = 0 \/ j = 1 \/ j = 2)%Z as [-> | [-> | ->]] by lia; reflexivity.
  - replace (Z.to_nat (4 * i + j)) with (4 + Z.to_nat (4 * (i - 1) + j))%nat by lia.
    simpl. rewrite (IH (from + 1)%Z (i - 1)%Z j) by lia.
    f_equal. f_equal. lia.
Qed.

Lemma luminance_render (grey : Z -> Z) (n : nat) (i : Z) :
  (0 <= i < Z.of_nat n)%Z ->
  luminance (render grey 0 n) (4 * i) = greyLuminance (grey i).
Proof.
  intros Hi. unfold greyLuminance, luminance, sample.
  rewrite <- (Z.add_0_r (4 * i)) at 1.
  rewrite !render_lookup by lia. reflexivity.
Qed.

Lemma differs_render (grey : Z -> Z) (n : nat) (k : Z) :
  (0 <= k)%Z -> (k + 1 < Z.of_nat n)%Z ->
  differs (render grey 0 n) (4 * k) = greyStep grey k.
Proof.
  intros Hk Hn. unfold differs, greyStep, greyDiffers.
  replace (4 * k + 4)%Z with (4 * (k + 1))%Z by lia.
  rewrite !luminance_render by lia. reflexivity.
Qed.

(** Black and white differ, in both orders, and neither differs from
    itself. *)
Lemma greyStep_blackWhite (grey : Z -> Z) (k : Z) :
  (forall j, grey j = 0%Z \/ grey j = 255%Z) ->
  greyStep grey k = blackWhiteStep grey k.
Proof.
  intros Hgrey. unfold greyStep, blackWhiteStep.
  destruct (Hgrey k) as [-> | ->], (Hgrey (k + 1)%Z) as [-> | ->];
    vm_compute; reflexivity.
Qed.

Lemma stripes_blackWhite (k : Z) : stripes k = 0%Z \/ stripes k = 255%Z.
Proof.
  unfold stripes. destruct (Z.div_eucl k analysisSize) as [row col].
  destruct (row <? 39)%Z; [destruct (Z.odd col); auto |].
  destruct (row =? 39)%Z; [destruct (Z.odd col && (col <? 200)%Z); auto |].
  destruct (Z.even row); auto.
Qed.

Lemma render_analysis_length (grey : Z -> Z) :
  Z.of_nat (length (render grey 0 (Z.to_nat pixels))) = (4 * pixels)%Z.
Proof.
  rewrite render_length. rewrite Nat2Z.inj_mul, Z2Nat.id by (vm_compute; discriminate). reflexivity.
Qed.

Lemma render_edgeStrength (grey : Z -> Z) :
  edgeStrength (render grey 0 (Z.to_nat pixels))
  = count (greyStep grey) 0 (Z.to_nat (pixels - 1)).
Proof.
  rewrite (edgeStrength_count (render grey 0 (Z.to_nat pixels)) pixels
             ltac:(unfold pixels, analysisSize; lia) (render_analysis_length grey)).
  apply (count_ext (fun j => differs (render grey 0 (Z.to_nat pixels)) (4 * j)) (greyStep grey)). intros j Hj.
  rewrite Z2Nat.id in Hj by (vm_compute; discriminate).
  apply differs_render; [lia |].
  rewrite Z2Nat.id by (vm_compute; discriminate). lia.
Qed.

Lemma render_horizontalEdgeCount (grey : Z -> Z) :
  horizontalEdgeCount (render grey 0 (Z.to_nat pixels))
  = count (fun k => hasRightNeighbour k && greyStep grey k) 0 (Z.to_nat pixels).
Proof.
  unfold horizontalEdgeCount.
  apply (count_ext
           (fun k => hasRightNeighbour k
                     && differs (render grey 0 (Z.to_nat pixels)) (4 * k))
           (fun k => hasRightNeighbour k && greyStep grey k)).
  intros j Hj. unfold hasRightNeighbour.
  destruct (Z.eqb_spec (j mod analysisSize) (analysisSize - 1)) as [Hlast | Hin];
    [reflexivity |].
  cbn [negb andb]. rewrite Z2Nat.id in Hj by (vm_compute; discriminate).
  apply differs_render; [lia |].
  rewrite Z2Nat.id by (vm_compute; discriminate).
  assert (j <> pixels - 1)%Z by (intros ->; apply Hin; reflexivity).
  lia.
Qed.

Lemma horizontalPairs_value : horizontalPairs = 159600%Z.
Proof. vm_compute. reflexivity. Qed.

Lemma stripes_edgeStrength : edgeStrength stripesData = 16160%Z.
Proof.
  unfold stripesData. rewrite render_edgeStrength.
  rewrite (count_ext (greyStep stripes) (blackWhiteStep stripes))
    by (intros j _; apply greyStep_blackWhite, stripes_blackWhite).
  vm_compute. reflexivity.
Qed.

Lemma stripes_horizontalEdgeCount : horizontalEdgeCount stripesData = 15761%Z.
Proof.
  unfold stripesData. rewrite render_horizontalEdgeCount.
  rewrite (count_ext (fun k => hasRightNeighbour k && greyStep stripes k)
             (fun k => hasRightNeighbour k && blackWhiteStep stripes k))
    by (intros j _; f_equal; apply greyStep_blackWhite, stripes_blackWhite).
  vm_compute. reflexivity.
Qed.

End RenderFacts.

(** ** Arrays of strings *)

Lemma existsb_eqb_elem (x : string) (l : list string) :
  existsb (String.eqb x) l = true <-> x ∈ l.
Proof.
  rewrite existsb_exists. split.
  - intros (y & Hin & Heq). apply String.eqb_eq in Heq. subst y.
    now apply list_elem_of_In.
  - intros Hin. exists x. split; [now apply list_elem_of_In | apply String.eqb_refl].
Qed.

Lemma uniqueInto_elem (arr : list string) :
  forall seen x, x ∈ Js.uniqueInto seen arr <-> x ∈ seen \/ x ∈ arr.
Proof.
  induction arr as [| y arr IH]; intros seen x; simpl.
  - rewrite elem_of_nil. tauto.
  - destruct (existsb (String.eqb y) seen) eqn:E; rewrite IH, elem_of_cons.
    + apply existsb_eqb_elem in E. split; [tauto |].
      intros [H | [-> | H]]; tauto.
    + rewrite elem_of_app, list_elem_of_singleton. tauto.
Qed.

Lemma uniqueInto_NoDup (arr : list string) :
  forall seen, NoDup seen -> NoDup (Js.uniqueInto seen arr).
Proof.
  induction arr as [| y arr IH]; intros seen Hseen; simpl; [exact Hseen |].
  destruct (existsb (String.eqb y) seen) eqn:E; apply IH; [exact Hseen |].
  apply NoDup_app. repeat split; [exact Hseen | | apply NoDup_singleton].
  intros z Hz Hz'. apply list_elem_of_singleton in Hz'. subst z.
  apply existsb_eqb_elem in Hz. congruence.
Qed.

Lemma unique_elem (arr : list string) (x : string) :
  x ∈ Js.unique arr <-> x ∈ arr.
Proof.
  unfold Js.unique. rewrite uniqueInto_elem, elem_of_nil. tauto.
Qed.

Lemma unique_NoDup (arr : list string) : NoDup (Js.unique arr).
Proof. apply uniqueInto_NoDup, NoDup_nil_2. Qed.

Lemma insertSorted_perm (x : string) (arr : list string) :
  Js.insertSorted x arr ≡ₚ x :: arr.
Proof.
  induction arr as [| y arr IH]; simpl; [reflexivity |].
  destruct (String.leb x y); [reflexivity |].
  rewrite IH. apply Permutation_swap.
Qed.

Lemma sort_perm (arr : list string) : Js.sort arr ≡ₚ arr.
Proof.
  induction arr as [| x arr IH]; simpl; [reflexivity |].
  rewrite insertSorted_perm, IH. reflexivity.
Qed.

Lemma insertSorted_sorted (x : string) (arr : list string) :
  Sorted Extractor.ascending arr ->
  Sorted Extractor.ascending (Js.insertSorted x arr).
Proof.
  induction arr as [| y arr IH]; intros Hs; simpl.
  - repeat constructor.
  - destruct (String.leb x y) eqn:E.
    + constructor; [exact Hs | constructor; exact E].
    + inversion Hs as [| ? ? Hs' Hhd]; subst.
      constructor; [apply IH; exact Hs' |].
      assert (Extractor.ascending y x) as Hyx.
      { destruct (String.leb_total x y) as [H | H]; [congruence | exact H]. }
      destruct arr as [| z arr]; simpl.
      * constructor; exact Hyx.
      * destruct (String.leb x z); constructor; [exact Hyx |].
        inversion Hhd; assumption.
Qed.

Lemma sort_sorted (arr : list string) : Sorted Extractor.ascending (Js.sort arr).
Proof.
  induction arr as [| x arr IH]; simpl; [constructor |].
  apply insertSorted_sorted, IH.
Qed.

(** ** The scan of the field extractor *)

Section ScanFacts.
Import Extractor.

Lemma valueFromNextLine_keys (lines : list string) (line lbl key : string)
    (extractedData : gmap string string) :
  is_Some (valueFromNextLine lines line lbl extractedData !! key) ->
  key = lbl \/ is_Some (extractedData !! key).
Proof.
  unfold valueFromNextLine.
  destruct (_ <? _)%Z; [| tauto].
  destruct (lines !! _) as [next |]; [| tauto].
  destruct (_ && _); [| tauto].
  destruct (decide (lbl = key)) as [-> | Hne]; [tauto |].
  rewrite lookup_insert_ne by exact Hne. tauto.
Qed.

Lemma recordMatch_found (lines : list string) (line lbl pattern : string)
    (st : Scan) :
  foundLabels (recordMatch lines line lbl pattern st) = (foundLabels st ++ [lbl])%list.
Proof.
  unfold recordMatch. destruct (Js.regexGroup pattern line) as [group |];
    [destruct (negb (Js.isEmpty group)) |]; reflexivity.
Qed.

Lemma recordMatch_keys (lines : list string) (line lbl pattern key : string)
    (st : Scan) :
  is_Some (scanData (recordMatch lines line lbl pattern st) !! key) ->
  key = lbl \/ is_Some (scanData st !! key).
Proof.
  unfold recordMatch. destruct (Js.regexGroup pattern line) as [group |];
    [destruct (negb (Js.isEmpty group)) |]; simpl;
    try apply valueFromNextLine_keys.
  destruct (decide (lbl = key)) as [-> | Hne]; [tauto |].
  rewrite lookup_insert_ne by exact Hne. tauto.
Qed.

Lemma recordMatch_invariant (lines : list string) (line lbl pattern : string)
    (st : Scan) :
  lbl ∈ canonicalLabels -> scanInvariant st ->
  scanInvariant (recordMatch lines line lbl pattern st).
Proof.
  intros Hlbl [Hkeys Hfound]. split.
  - intros key Hkey. rewrite recordMatch_found, elem_of_app, list_elem_of_singleton.
    apply recordMatch_keys in Hkey as [-> | Hkey]; [now right | left; auto].
  - intros l. rewrite recordMatch_found, elem_of_app, list_elem_of_singleton.
    intros [H | ->]; auto.
Qed.

Lemma scanPatterns_invariant (lines : list string) (line lowerLine lbl : string)
    (pats : list string) (st : Scan) :
  lbl ∈ canonicalLabels -> scanInvariant st ->
  scanInvariant (scanPatterns lines line lowerLine lbl pats st).
Proof.
  intros Hlbl Hst. induction pats as [| pattern pats IH]; simpl; [exact Hst |].
  destruct (Js.includes lowerLine pattern); [| exact IH].
  now apply recordMatch_invariant.
Qed.

Lemma scanLabels_invariant (lines : list string) (line lowerLine : string)
    (dictionary : list LabelPattern) :
  (forall lp, lp ∈ dictionary -> label lp ∈ canonicalLabels) ->
  forall st, scanInvariant st ->
  scanInvariant
    (fold_left
       (fun st lp => scanPatterns lines line lowerLine (label lp) (patterns lp) st)
       dictionary st).
Proof.
  induction dictionary as [| lp dictionary IH]; intros Hdict st Hst; simpl;
    [exact Hst |].
  apply IH.
  - intros lp' Hlp'. apply Hdict. now right.
  - apply scanPatterns_invariant; [apply Hdict; now left | exact Hst].
Qed.

Lemma scanLine_invariant (lines : list string) (st : Scan) (line : string) :
  scanInvariant st -> scanInvariant (scanLine lines st line).
Proof.
  apply scanLabels_invariant. intros lp Hlp.
  unfold canonicalLabels. apply list_elem_of_In, in_map, list_elem_of_In, Hlp.
Qed.

Lemma scanLines_invariant (lines : list string) : scanInvariant (scanLines lines).
Proof.
  unfold scanLines.
  assert (forall ls st, scanInvariant st ->
                        scanInvariant (fold_left (scanLine lines) ls st)) as H.
  { induction ls as [| l ls IH]; intros st Hst; simpl; [exact Hst |].
    apply IH, scanLine_invariant, Hst. }
  apply H. split; simpl.
  - intros key [v Hv]. rewrite lookup_empty in Hv. discriminate.
  - intros lbl Hl. apply elem_of_nil in Hl. contradiction.
Qed.

Lemma extractFrom_wellFormed (data : OcrData) : wellFormed (extractFrom data).
Proof.
  destruct (scanLines_invariant (nonEmptyLines (text data))) as [Hkeys Hfound].
  unfold wellFormed, extractFrom; simpl. repeat split.
  - intros key Hkey. rewrite sort_perm. apply unique_elem, Hkeys, Hkey.
  - intros lbl. rewrite sort_perm, unique_elem. apply Hfound.
  - rewrite sort_perm. apply unique_NoDup.
  - apply sort_sorted.
Qed.

Lemma failed_wellFormed : wellFormed failed.
Proof.
  unfold wellFormed, failed; simpl. repeat split.
  - intros key [v Hv]. rewrite lookup_empty in Hv. discriminate.
  - intros lbl Hl. apply elem_of_nil in Hl. contradiction.
  - apply NoDup_nil_2.
  - constructor.
Qed.

Lemma indexOfFrom_first (lines : list string) (line : string) :
  forall (i : nat) (from : Z),
    lines !! i = Some line ->
    (forall j, (j < i)%nat -> lines !! j <> Some line) ->
    Js.indexOfFrom from lines line = (from + Z.of_nat i)%Z.
Proof.
  induction lines as [| l lines IH]; intros i from Hi Hfirst; [discriminate |].
  simpl. destruct i as [| i].
  - injection Hi as ->. rewrite String.eqb_refl. lia.
  - destruct (String.eqb_spec l line) as [-> | Hne].
    + exfalso. apply (Hfirst 0%nat); [lia | reflexivity].
    + rewrite (IH i (from + 1)%Z Hi); [lia |].
      intros j Hj. apply (Hfirst (S j)). lia.
Qed.

Lemma valueFromNextLine_following (lines : list string) (i : nat)
    (line next lbl : string) (extractedData : gmap string string) :
  lines !! i = Some line ->
  (forall j, (j < i)%nat -> lines !! j <> Some line) ->
  lines !! S i = Some next ->
  Js.trim next <> "" ->
  valueFromNextLine lines line lbl extractedData
  = <[lbl := Js.trim next]> extractedData.
Proof.
  intros Hi Hfirst Hnext Hne. unfold valueFromNextLine, Js.indexOf.
  rewrite (indexOfFrom_first lines line i 0 Hi Hfirst).
  apply lookup_lt_Some in Hnext as Hlen.
  destruct (Z.ltb_spec (0 + Z.of_nat i) (Z.of_nat (length lines) - 1)); [| lia].
  replace (Z.to_nat (0 + Z.of_nat i + 1)) with (S i) by lia.
  rewrite Hnext. destruct (Js.trim next) as [| c rest]; [contradiction | reflexivity].
Qed.

Lemma valueFromNextLine_last (lines : list string) (i : nat)
    (line lbl : string) (extractedData : gmap string string) :
  lines !! i = Some line ->
  (forall j, (j < i)%nat -> lines !! j <> Some line) ->
  S i = length lines ->
  valueFromNextLine lines line lbl extractedData = extractedData.
Proof.
  intros Hi Hfirst Hlast. unfold valueFromNextLine, Js.indexOf.
  rewrite (indexOfFrom_first lines line i 0 Hi Hfirst).
  destruct (Z.ltb_spec (0 + Z.of_nat i) (Z.of_nat (length lines) - 1)); [lia | reflexivity].
Qed.

Lemma dotPlus_nonempty (s group : string) :
  Js.dotPlus s = Some group -> group <> "".
Proof.
  unfold Js.dotPlus. destruct (Js.dotRun s); [discriminate |].
  intros [= <-]. discriminate.
Qed.

Lemma separatorsThenGroup_nonempty (s group : string) :
  Js.separatorsThenGroup s = Some group -> group <> "".
Proof.
  induction s as [| c s IH]; simpl; [discriminate |].
  destruct (Js.inLabelSeparatorClass c); [| apply dotPlus_nonempty].
  destruct (Js.separatorsThenGroup s) as [cap |].
  - intros [= <-]. apply IH. reflexivity.
  - apply dotPlus_nonempty.
Qed.

Lemma regexGroup_nonempty (pattern line group : string) :
  Js.regexGroup pattern line = Some group -> group <> "".
Proof.
  induction line as [| c line IH]; simpl.
  - unfold Js.matchHere. destruct (Js.matchLiteral pattern "") as [rest |];
      [| discriminate].
    destruct (Js.separatorsThenGroup rest) eqn:E; [| discriminate].
    intros [= <-]. eapply separatorsThenGroup_nonempty, E.
  - unfold Js.matchHere.
    destruct (Js.matchLiteral pattern (String c line)) as [rest |]; [| exact IH].
    destruct (Js.separatorsThenGroup rest) eqn:E; [| exact IH].
    intros [= <-]. eapply separatorsThenGroup_nonempty, E.
Qed.

(** The value found after the phrase on the line itself is the one
    recorded. *)
Lemma recordMatch_inline (lines : list string) (line lbl pattern group : string)
    (st : Scan) :
  Js.regexGroup pattern line = Some group ->
  recordMatch lines line lbl pattern st
  = {| foundLabels := (foundLabels st ++ [lbl])%list;
       scanData := <[lbl := Js.trim group]> (scanData st) |}.
Proof.
  intros Hgroup. unfold recordMatch. rewrite Hgroup.
  destruct group; [| reflexivity].
  exfalso. eapply regexGroup_nonempty; [exact Hgroup | reflexivity].
Qed.

(** The star of the expression gives back what the group needs: a colon or a
    blank that ends the line is taken for the value. *)
Lemma regexGroup_takes_separator :
  Js.regexGroup "name" "Name:" = Some ":"
  /\ Js.regexGroup "name" "Name: " = Some " "
  /\ Js.regexGroup "name" "Name" = None.
Proof. repeat split; reflexivity. Qed.

Lemma indexOfFrom_bounds (lines : list string) (line : string) :
  forall from,
    (Js.indexOfFrom from lines line = -1
     \/ from <= Js.indexOfFrom from lines line < from + Z.of_nat (length lines))%Z.
Proof.
  induction lines as [| l lines IH]; intros from; simpl; [left; reflexivity |].
  destruct (String.eqb l line); [right; lia |].
  destruct (IH (from + 1)%Z) as [H | H]; [left; exact H | right; lia].
Qed.

(** The line read by the [else] branch exists. *)
Lemma next_line_in_range (lines : list string) (line : string) :
  (Js.indexOf lines line <? Z.of_nat (length lines) - 1)%Z = true ->
  is_Some (lines !! Z.to_nat (Js.indexOf lines line + 1)).
Proof.
  intros Hguard. apply Z.ltb_lt in Hguard. apply lookup_lt_is_Some.
  unfold Js.indexOf in *.
  destruct (indexOfFrom_bounds lines line 0) as [H | H]; lia.
Qed.

End ScanFacts.

(** ** The service *)

(** Unfolds the methods of the service down to the calls of the engines. *)
Ltac unfold_service :=
  unfold verifyDocument, verifyDocumentBody, validateImageQuality,
    performTemplateMatching, extractTextLabels, notify,
    bind, tryCatch, await, ret, raise, emit, this in *;
  simpl in *.

(** Splits on the outcome of the next engine call or callback. *)
Ltac next_outcome :=
  match goal with
  | H : context [match ?o with inl _ => _ | inr _ => _ end] |- _ =>
      destruct o eqn:?; simpl in H
  | H : context [match ?o with Some _ => _ | None => _ end] |- _ =>
      destruct o eqn:?; simpl in H
  | H : context [if ?b then _ else _] |- _ =>
      destruct b eqn:?; simpl in H
  | |- context [match ?o with inl _ => _ | inr _ => _ end] =>
      destruct o eqn:?; simpl
  | |- context [match ?o with Some _ => _ | None => _ end] =>
      destruct o eqn:?; simpl
  | |- context [if ?b then _ else _] =>
      destruct b eqn:?; simpl
  end.

Section ServiceFacts.
Context {File Image Worker : Type}.
Variable loadImageFromFile : File -> Outcome Image.
Variable imageWidth imageHeight : Image -> Q.
Variable analysisData : Image -> Outcome (list Z).
Variable correlation : Image -> Image -> Q * Q -> Q * Q -> Outcome Q.
Variable recognize : Worker -> File -> Outcome OcrData.

Local Abbreviation run :=
  (verifyDocument loadImageFromFile imageWidth imageHeight analysisData
                  correlation recognize).
Local Abbreviation body :=
  (verifyDocumentBody loadImageFromFile imageWidth imageHeight analysisData
                      correlation recognize).

(** The gate decides on the pixels the canvas hands back. *)
Lemma validateImageQuality_decides (imageFile : File) (image : Image)
    (data : list Z) (w : @World Worker) :
  loadImageFromFile imageFile = ok image ->
  analysisData image = ok data ->
  validateImageQuality loadImageFromFile analysisData imageFile w
  = (w, Quality.checkData data).
Proof.
  intros Hload Hdata. unfold validateImageQuality, bind, await.
  rewrite Hload. simpl. rewrite Hdata. reflexivity.
Qed.

Lemma run_trace (idImageFile referenceImageFile : File)
    (callback : string -> Z -> Outcome unit) (w w' : World)
    (r : VerificationResult) :
  run idImageFile referenceImageFile (Some callback) w = (w', ok r) ->
  events w' = (events w ++ completeTrace)%list.
Proof.
  intros Hrun. unfold_service.
  repeat next_outcome; try discriminate.
  all: injection Hrun as <- _; simpl; rewrite <- !app_assoc; reflexivity.
Qed.

Lemma run_overall (idImageFile referenceImageFile : File)
    (onProgress : option (string -> Z -> Outcome unit)) (w w' : World)
    (r : VerificationResult) :
  run idImageFile referenceImageFile onProgress w = (w', ok r) ->
  overall r = aggregate (templateMatch r) (textExtraction r).
Proof.
  intros Hrun. unfold_service.
  repeat next_outcome; try discriminate;
  injection Hrun as _ <-; reflexivity.
Qed.

Lemma run_keeps_service (idImageFile referenceImageFile : File)
    (onProgress : option (string -> Z -> Outcome unit)) (w : World) :
  service (fst (run idImageFile referenceImageFile onProgress w)) = service w.
Proof.
  unfold_service.
  repeat next_outcome; reflexivity.
Qed.

Lemma run_rethrows (idImageFile referenceImageFile : File)
    (onProgress : option (string -> Z -> Outcome unit)) (w : World) :
  notInitialized (service w) = false ->
  run idImageFile referenceImageFile onProgress w
  = match body idImageFile referenceImageFile onProgress w with
    | (w', inl e) =>
        (w', throw (ErrorInstance ("Verification failed: " +:+ errorMessage e)))
    | (w', inr r) => (w', ok r)
    end.
Proof.
  intros Hready. unfold verifyDocument, bind, this, tryCatch, raise. simpl.
  rewrite Hready.
  destruct (body idImageFile referenceImageFile onProgress w) as [w' [e | r]];
    reflexivity.
Qed.

Lemma performTemplateMatching_returns (sourceImg templateImg : Image)
    (w : @World Worker) :
  performTemplateMatching imageWidth imageHeight correlation sourceImg templateImg w
  = (w, ok (matcherResult imageWidth imageHeight correlation sourceImg templateImg)).
Proof.
  unfold matcherResult. unfold_service. repeat next_outcome; reflexivity.
Qed.

Lemma extractTextLabels_returns (imageFile : File) (w : @World Worker) :
  extractTextLabels recognize imageFile w
  = (w, ok (extractorResult recognize (service w) imageFile)).
Proof.
  unfold extractorResult. unfold_service. repeat next_outcome; reflexivity.
Qed.

Lemma run_trace_silent (idImageFile referenceImageFile : File)
    (w w' : World) (r : VerificationResult) :
  run idImageFile referenceImageFile None w = (w', ok r) ->
  events w' = (events w ++ stagesOnly)%list.
Proof.
  intros Hrun. unfold_service.
  repeat next_outcome; try discriminate.
  all: injection Hrun as <- _; simpl; rewrite <- !app_assoc; reflexivity.
Qed.

(** A run on a service that is ready completes when the gate accepts the
    image, both images decode and the callback returns, whatever the two
    engines do. *)
Lemma run_completes (idImageFile referenceImageFile : File)
    (callback : string -> Z -> Outcome unit) (w : @World Worker)
    (idImage referenceImage : Image) (data : list Z) :
  notInitialized (service w) = false ->
  (forall stage progress, callback stage progress = ok tt) ->
  loadImageFromFile idImageFile = ok idImage ->
  analysisData idImage = ok data ->
  Quality.checkData data = ok tt ->
  loadImageFromFile referenceImageFile = ok referenceImage ->
  run idImageFile referenceImageFile (Some callback) w
  = ({| service := service w; events := (events w ++ completeTrace)%list |},
     ok {| templateMatch := matcherResult imageWidth imageHeight correlation idImage referenceImage;
           textExtraction := extractorResult recognize (service w) idImageFile;
           overall := aggregate (matcherResult imageWidth imageHeight correlation idImage referenceImage)
                                (extractorResult recognize (service w) idImageFile) |}).
Proof.
  intros Hready Hcallback Hid Hdata Hcheck Href.
  unfold matcherResult, extractorResult. unfold_service.
  rewrite Hready; simpl.
  repeat (first [rewrite Hcallback | rewrite Hid | rewrite Hdata
                | rewrite Hcheck | rewrite Href]; simpl).
  repeat next_outcome; rewrite <- !app_assoc; reflexivity.
Qed.

End ServiceFacts.

Lemma aggregate_isValid (templateResult : TemplateMatch.t)
    (textResult : TextExtraction.t) :
  Overall.isValid (aggregate templateResult textResult) = true
  <-> TemplateMatch.isMatch templateResult = true
      /\ TextExtraction.extractedLabels textResult <> [].
Proof.
  unfold aggregate; simpl. rewrite andb_true_iff.
  destruct (TextExtraction.extractedLabels textResult) as [| lbl labels]; simpl.
  - split; [intros [_ H]; discriminate | intros [_ H]; contradiction].
  - split; intros [H _]; (split; [exact H |]); [discriminate | reflexivity].
Qed.

(** ** The statements of the specification *)






(** C3, as the specification words it, fails. On the striped image 15761
    of the 159600 pairs of horizontal neighbours are edges, a ratio below
    0.1; the loop also meets the 399 pairs made of the end of a row and the
    start of the next, finds 16160 edges, and the gate lets the image pass. *)
Lemma horizontal_ratio_disagrees : ~ Quality.gateCountsHorizontalPairs.
Proof.
  intros H.
  pose proof (render_analysis_length Quality.stripes) as Hlen.
  fold Quality.stripesData in Hlen.
  destruct (H Quality.stripesData Hlen) as [_ Hthrown].
  assert (Quality.checkData Quality.stripesData = ok tt) as Hpasses.
  { apply checkData_passes; [exact Hlen |]. rewrite stripes_edgeStrength. lia. }
  rewrite Hthrown in Hpasses; [discriminate |].
  unfold Quality.horizontalEdgeRatio.
  rewrite stripes_horizontalEdgeCount, horizontalPairs_value.
  reflexivity.
Qed.

(** C3, amended. The luminance of a pixel is the sum, from left to right, of
    its red, green and blue bytes times 0.299, 0.587 and 0.114, every product
    and every sum rounded to a double; two pixels differ when the absolute
    value of the rounded difference of their luminances is above 30, so that
    the greys 26 and 56 differ although their levels are 30 apart. On the
    640000 bytes of the analysis square the loop counts, among the 159999
    pairs of a pixel and the pixel stored after it (the pairs that straddle
    two rows included), those that differ; the ratio is that count divided by
    the 160000 pixels, rounded; the gate throws its low-quality error exactly
    when the ratio is below the double 0.1, that is when the count is below
    16000. A flat image is rejected, and an image all of whose horizontal
    neighbours differ is accepted. *)
Theorem quality_gate_decision (data : list Z) :
  Z.of_nat (length data) = (4 * Quality.pixels)%Z ->
  (forall k : Z,
      Quality.luminance data (4 * k)
      = Double.add
          (Double.add
             (Double.mul (Quality.sample data (4 * k)) (Double.round 0.299))
             (Double.mul (Quality.sample data (4 * k + 1)) (Double.round 0.587)))
          (Double.mul (Quality.sample data (4 * k + 2)) (Double.round 0.114)))
  /\ (forall k : Z,
        Quality.differs data (4 * k) = true
        <-> (30 < Qabs (Double.sub (Quality.luminance data (4 * k))
                                   (Quality.luminance data (4 * k + 4))))%Q)
  /\ Quality.greyDiffers 26 56 = true
  /\ Quality.edgeStrength data
     = Quality.count (fun k => Quality.differs data (4 * k)) 0
                     (Z.to_nat (Quality.pixels - 1))
  /\ Quality.edgeRatio data
     = Double.div (inject_Z (Quality.edgeStrength data)) 160000
  /\ (Quality.checkData data = throw (ErrorInstance Quality.lowQualityMessage)
      <-> (Quality.edgeRatio data < Double.round 0.1)%Q)
  /\ (Quality.checkData data = ok tt
      <-> (Double.round 0.1 <= Quality.edgeRatio data)%Q)
  /\ ((Quality.edgeRatio data < Double.round 0.1)%Q
      <-> (Quality.edgeStrength data < 16000)%Z)
  /\ (Quality.flatColor data ->
      Quality.checkData data = throw (ErrorInstance Quality.lowQualityMessage))
  /\ (Quality.checkerboard data -> Quality.checkData data = ok tt).
Proof.
  intros Hlen.
  pose proof (edgeRatio_lt data Hlen) as Hratio.
  pose proof (checkData_throws data Hlen) as Hthrows.
  pose proof (checkData_passes data Hlen) as Hpasses.
  split; [intros k; reflexivity |].
  split; [intros k; unfold Quality.differs, Quality.threshold; apply Qltb_lt |].
  split; [vm_compute; reflexivity |].
  split; [apply edgeStrength_count;
          [unfold Quality.pixels, Quality.analysisSize; lia | exact Hlen] |].
  split; [apply edgeRatio_value, Hlen |].
  repeat split.
  - intros H. apply Hratio, Hthrows, H.
  - intros H. apply Hthrows, Hratio, H.
  - intros H. apply Hpasses in H.
    destruct (Qlt_le_dec (Quality.edgeRatio data) (Double.round 0.1))
      as [Hlt | Hge]; [| exact Hge].
    apply Hratio in Hlt. lia.
  - intros H. apply Hpasses.
    destruct (Z.lt_ge_cases (Quality.edgeStrength data) 16000) as [Hlt | Hge];
      [| exact Hge].
    apply Hratio in Hlt. lra.
  - apply Hratio.
  - apply Hratio.
  - intros Hflat. apply Hthrows. rewrite (flatColor_no_edge data Hlen Hflat). lia.
  - intros Hcb. apply Hpasses.
    pose proof (checkerboard_edges data Hlen Hcb). lia.
Qed.

(** The striped image fills the analysis square. *)
Lemma quality_gate_decision_witness :
  let data := Quality.stripesData in
  Z.of_nat (length data) = (4 * Quality.pixels)%Z
  /\ (forall k : Z,
        Quality.luminance data (4 * k)
        = Double.add
            (Double.add
               (Double.mul (Quality.sample data (4 * k)) (Double.round 0.299))
               (Double.mul (Quality.sample data (4 * k + 1)) (Double.round 0.587)))
            (Double.mul (Quality.sample data (4 * k + 2)) (Double.round 0.114)))
  /\ (forall k : Z,
        Quality.differs data (4 * k) = true
        <-> (30 < Qabs (Double.sub (Quality.luminance data (4 * k))
                                   (Quality.luminance data (4 * k + 4))))%Q)
  /\ Quality.greyDiffers 26 56 = true
  /\ Quality.edgeStrength data
     = Quality.count (fun k => Quality.differs data (4 * k)) 0
                     (Z.to_nat (Quality.pixels - 1))
  /\ Quality.edgeRatio data
     = Double.div (inject_Z (Quality.edgeStrength data)) 160000
  /\ (Quality.checkData data = throw (ErrorInstance Quality.lowQualityMessage)
      <-> (Quality.edgeRatio data < Double.round 0.1)%Q)
  /\ (Quality.checkData data = ok tt
      <-> (Double.round 0.1 <= Quality.edgeRatio data)%Q)
  /\ ((Quality.edgeRatio data < Double.round 0.1)%Q
      <-> (Quality.edgeStrength data < 16000)%Z)
  /\ (Quality.flatColor data ->
      Quality.checkData data = throw (ErrorInstance Quality.lowQualityMessage))
  /\ (Quality.checkerboard data -> Quality.checkData data = ok tt).
Proof.
  assert (Z.of_nat (length Quality.stripesData)
          = (4 * Quality.pixels)%Z) as Hlen.
  { unfold Quality.stripesData. rewrite render_length, Nat2Z.inj_mul, Z2Nat.id.
    - reflexivity.
    - vm_compute. discriminate. }
  split; [exact Hlen |].
  apply (quality_gate_decision Quality.stripesData Hlen).
Defined.


(** A verification asked for on a page with both images and a service that is
    ready is started, and its run is in flight. *)
Lemma startVerification_accepted {File Worker : Type} (p : Page.State File)
    (s : @Session File Worker) (idImageFile referenceImageFile : File) :
  Page.idImage p = Some idImageFile ->
  Page.referenceImage p = Some referenceImageFile ->
  Page.isServiceReady p = true ->
  notInitialized (service (world s)) = false ->
  Page.startVerification p s
  = (Page.setProcessingState processing (Page.setVerificationResult None p),
     {| world := world s;
        inFlight := (inFlight s ++ [(idImageFile, referenceImageFile)])%list |}).
Proof.
  intros Hid Href Hpage Hready.
  unfold Page.startVerification, callVerifyDocument.
  rewrite Hid, Href, Hpage, Hready. reflexivity.
Qed.



(** C5. The matcher and the extractor always return: when the canvases or
    OpenCV throw the matcher returns no match with confidence 0 and its
    failure message; when the worker is missing or the recognition throws the
    extractor returns no label, no data, confidence 0 and its failure
    message. *)
Theorem stages_absorb_their_failures {File Image Worker : Type}
    (imageWidth imageHeight : Image -> Q)
    (correlation : Image -> Image -> Q * Q -> Q * Q -> Outcome Q)
    (recognize : Worker -> File -> Outcome OcrData)
    (sourceImg templateImg : Image) (imageFile : File) (w : @World Worker) :
  (exists templateResult,
      performTemplateMatching imageWidth imageHeight correlation
        sourceImg templateImg w = (w, ok templateResult)
      /\ templateResult
         = match correlation sourceImg templateImg
                   (Matcher.resized (imageWidth sourceImg) (imageHeight sourceImg))
                   (Matcher.resized (imageWidth templateImg) (imageHeight templateImg))
           with
           | inl _ =>
               {| TemplateMatch.isMatch := false;
                  TemplateMatch.confidence := 0;
                  TemplateMatch.details :=
                    "Template matching failed due to processing error." |}
           | inr confidence => Matcher.matched confidence
           end)
  /\ (exists textResult,
         extractTextLabels recognize imageFile w = (w, ok textResult)
         /\ textResult
            = match tesseractWorker (service w) with
              | Some worker =>
                  match recognize worker imageFile with
                  | inl _ =>
                      {| TextExtraction.extractedLabels := [];
                         TextExtraction.extractedData := ∅;
                         TextExtraction.confidence := 0;
                         TextExtraction.details :=
                           "Text extraction failed due to OCR processing error." |}
                  | inr data => Extractor.extractFrom data
                  end
              | None => Extractor.failed
              end).
Proof.
  split.
  - eexists. split; [apply performTemplateMatching_returns |]. reflexivity.
  - eexists. split; [apply extractTextLabels_returns |]. reflexivity.
Qed.

(** C6, at a text with a repeated line. The lines are Name, Alice, Name and
    Bob; neither Name line has a value after the phrase. For the second one
    [indexOf] reports position 0, so the value recorded is Alice, the line
    after the first Name, and not Bob, the line that follows it. *)
Theorem repeated_line_takes_first_successor (confidence : Q) :
  let lines := Extractor.nonEmptyLines Extractor.repeatedLineText in
  let r := Extractor.extractFrom
             {| text := Extractor.repeatedLineText; ocrConfidence := confidence |} in
  lines = ["Name"; "Alice"; "Name"; "Bob"]
  /\ Js.regexGroup "name" "Name" = None
  /\ lines !! 2%nat = Some "Name"
  /\ lines !! 3%nat = Some "Bob"
  /\ Js.indexOf lines "Name" = 0%Z
  /\ Extractor.valueFromNextLine lines "Name" "Name" ∅ = {[ "Name" := "Alice" ]}
  /\ TextExtraction.extractedData r !! "Name" = Some "Alice".
Proof.
  repeat split; vm_compute; reflexivity.
Qed.

(** C7. On the sample text the labels are Date of Birth and Name in this
    order, the name is John Smith, and the date of birth, which has nothing
    after its label, is taken from the next line. *)
Theorem sample_text_extraction (confidence : Q) :
  let r := Extractor.extractFrom
             {| text := Extractor.sampleText; ocrConfidence := confidence |} in
  Extractor.nonEmptyLines Extractor.sampleText
  = ["Name: John Smith"; "Date of Birth"; "01/01/1990"]
  /\ TextExtraction.extractedLabels r = ["Date of Birth"; "Name"]
  /\ TextExtraction.extractedData r !! "Name" = Some "John Smith"
  /\ TextExtraction.extractedData r !! "Date of Birth" = Some "01/01/1990"
  /\ Js.regexGroup "date of birth" "Date of Birth" = None
  /\ TextExtraction.extractedData r
     = {[ "Name" := "John Smith"; "Date of Birth" := "01/01/1990" ]}.
Proof.
  repeat split; vm_compute; reflexivity.
Qed.

(** C8, as the specification words it, fails: the callback is optional, and
    a run without one returns without a single notification. *)
Lemma silent_run_reports_nothing : ~ AsSpecified.everyRunReportsCheckpoints.
Proof.
  intros H.
  specialize (H string string unit Stub.loadImageFromFile Stub.imageWidth
                Stub.imageHeight Stub.sharpCanvas Stub.correlation
                Stub.recognize "id.png" "template.png" None
                Stub.start Stub2.silent Stub.result).
  assert (progressValues (drop (length (events Stub.start)) (events Stub2.silent))
          = []) as Hnone by reflexivity.
  rewrite Hnone in H. discriminate H. vm_compute. reflexivity.
Qed.

(** C8, amended. A run that returns and was given a callback has called it
    with 5, 10, 30, 60, 90 and 100, in this order and each time before the
    stage it announces, and the percentages never decrease; a run that
    returns and was given no callback has entered the same stages and has
    reported nothing. *)
Theorem progress_checkpoints {File Image Worker : Type}
    (loadImageFromFile : File -> Outcome Image)
    (imageWidth imageHeight : Image -> Q)
    (analysisData : Image -> Outcome (list Z))
    (correlation : Image -> Image -> Q * Q -> Q * Q -> Outcome Q)
    (recognize : Worker -> File -> Outcome OcrData)
    (idImageFile referenceImageFile : File)
    (onProgress : option (string -> Z -> Outcome unit))
    (w w' : @World Worker) (r : VerificationResult) :
  verifyDocument loadImageFromFile imageWidth imageHeight analysisData
    correlation recognize idImageFile referenceImageFile onProgress w
  = (w', ok r) ->
  match onProgress with
  | Some callback =>
      events w' = (events w ++ completeTrace)%list
      /\ progressValues completeTrace = [5; 10; 30; 60; 90; 100]%Z
      /\ Sorted Z.le (progressValues completeTrace)
  | None =>
      events w' = (events w ++ stagesOnly)%list
      /\ progressValues stagesOnly = []
  end.
Proof.
  intros Hrun. destruct onProgress as [callback |].
  - split; [exact (run_trace _ _ _ _ _ _ _ _ _ _ _ _ Hrun) |].
    split; [reflexivity |].
    change (progressValues completeTrace) with [5; 10; 30; 60; 90; 100]%Z.
    repeat constructor; lia.
  - split; [exact (run_trace_silent _ _ _ _ _ _ _ _ _ _ _ Hrun) | reflexivity].
Qed.

(** The run on the stub engines, from no event to the complete trace. *)
Lemma progress_checkpoints_witness :
  events Stub.completed = (events Stub.start ++ completeTrace)%list
  /\ progressValues completeTrace = [5; 10; 30; 60; 90; 100]%Z
  /\ Sorted Z.le (progressValues completeTrace).
Proof.
  apply (progress_checkpoints Stub.loadImageFromFile Stub.imageWidth
           Stub.imageHeight Stub.sharpCanvas Stub.correlation Stub.recognize
           "id.png" "template.png" (Some Stub.onProgress)
           Stub.start Stub.completed Stub.result).
  vm_compute. reflexivity.
Defined.

(** C9. Whatever the recognition returns, the result of the extractor is
    well formed: every key of the data is one of the labels, every label is
    one of the thirteen names of the dictionary, and the labels are without
    repetition and in ascending order. *)
Theorem extraction_result_wellFormed {File Worker : Type}
    (recognize : Worker -> File -> Outcome OcrData)
    (imageFile : File) (w : @World Worker) (data : OcrData) :
  Extractor.wellFormed (Extractor.extractFrom data)
  /\ Extractor.wellFormed Extractor.failed
  /\ (exists textResult,
         extractTextLabels recognize imageFile w = (w, ok textResult)
         /\ Extractor.wellFormed textResult)
  /\ Extractor.canonicalLabels
     = ["Name"; "Date of Birth"; "ID Number"; "Address"; "City"; "State";
        "ZIP Code"; "Sex"; "Height"; "Weight"; "Issue Date"; "Expiration";
        "Class"]
  /\ length Extractor.canonicalLabels = 13%nat.
Proof.
  split; [apply extractFrom_wellFormed |].
  split; [apply failed_wellFormed |].
  split; [| split; reflexivity].
  eexists. split; [apply extractTextLabels_returns |].
  unfold extractorResult.
  destruct (tesseractWorker (service w)) as [worker |];
    [destruct (recognize worker imageFile) |];
    first [apply extractFrom_wellFormed | apply failed_wellFormed].
Qed.

(** C10, as the specification words it, fails: an image that does not decode
    rejects with the event of [onerror], which has no message to carry
    over. *)
Lemma image_load_rejection_has_no_message : ~ AsSpecified.rethrowKeepsMessage.
Proof.
  intros H.
  destruct (H string string unit Stub.brokenImage Stub.imageWidth Stub.imageHeight
              Stub.sharpCanvas Stub.correlation Stub.recognize
              "id.png" "template.png" (Some Stub.onProgress)
              Stub.start Stub.rejected NonError)
    as (message & Hmessage & _).
  - reflexivity.
  - vm_compute. reflexivity.
  - discriminate.
Qed.

(** C10, amended. Whatever the [try] block of a run on an initialized service
    throws reaches the caller as one [Error], whose message is the prefix
    followed by the message of the value thrown when that value is an
    [Error], and by the words Unknown error when it is not. *)
Theorem failures_are_rethrown_with_prefix {File Image Worker : Type}
    (loadImageFromFile : File -> Outcome Image)
    (imageWidth imageHeight : Image -> Q)
    (analysisData : Image -> Outcome (list Z))
    (correlation : Image -> Image -> Q * Q -> Q * Q -> Outcome Q)
    (recognize : Worker -> File -> Outcome OcrData)
    (idImageFile referenceImageFile : File)
    (onProgress : option (string -> Z -> Outcome unit))
    (w w' : @World Worker) (e : Thrown) :
  notInitialized (service w) = false ->
  verifyDocumentBody loadImageFromFile imageWidth imageHeight analysisData
    correlation recognize idImageFile referenceImageFile onProgress w
  = (w', throw e) ->
  verifyDocument loadImageFromFile imageWidth imageHeight analysisData
    correlation recognize idImageFile referenceImageFile onProgress w
  = (w', throw (ErrorInstance
                  ("Verification failed: " +:+
                   match e with
                   | ErrorInstance message => message
                   | NonError => "Unknown error"
                   end))).
Proof.
  intros Hready Hbody.
  rewrite (run_rethrows _ _ _ _ _ _ _ _ _ _ Hready), Hbody.
  destruct e; reflexivity.
Qed.

(** The rejection of the gate on a flat canvas, as the caller gets it. *)
Lemma failures_are_rethrown_with_prefix_witness :
  verifyDocument Stub.loadImageFromFile Stub.imageWidth Stub.imageHeight
    Stub.flatCanvas Stub.correlation Stub.recognize
    "id.png" "template.png" (Some Stub.onProgress) Stub.start
  = (Stub.rejected,
     throw (ErrorInstance ("Verification failed: " +:+ Quality.lowQualityMessage))).
Proof.
  apply (failures_are_rethrown_with_prefix Stub.loadImageFromFile Stub.imageWidth
           Stub.imageHeight Stub.flatCanvas Stub.correlation Stub.recognize
           "id.png" "template.png" (Some Stub.onProgress)
           Stub.start Stub.rejected (ErrorInstance Quality.lowQualityMessage)).
  - reflexivity.
  - vm_compute. reflexivity.
Defined.

(* ===================================================================== *)
(** * Further properties of the code *)
(* ===================================================================== *)

(** ** Trimming *)

Lemma trimEnd_idempotent (s : string) : Js.trimEnd (Js.trimEnd s) = Js.trimEnd s.
Proof.
  induction s as [| c s IH]; simpl; [reflexivity |].
  destruct (Js.isWhiteSpace c && Js.isEmpty (Js.trimEnd s)) eqn:E; simpl;
    [reflexivity |].
  rewrite IH, E. reflexivity.
Qed.

Lemma trimStart_trimEnd (s : string) :
  Js.trimStart s = s -> Js.trimStart (Js.trimEnd s) = Js.trimEnd s.
Proof.
  destruct s as [| c s]; simpl; [reflexivity |].
  destruct (Js.isWhiteSpace c) eqn:E; simpl.
  - intros H. exfalso.
    assert (String.length (Js.trimStart s) <= String.length s)%nat as Hlen.
    { clear. induction s as [| d s IH]; simpl; [lia |].
      destruct (Js.isWhiteSpace d); simpl; lia. }
    rewrite H in Hlen. simpl in Hlen. lia.
  - intros _. rewrite E. reflexivity.
Qed.

Lemma trimStart_idempotent (s : string) :
  Js.trimStart (Js.trimStart s) = Js.trimStart s.
Proof.
  induction s as [| c s IH]; simpl; [reflexivity |].
  destruct (Js.isWhiteSpace c) eqn:E; [exact IH |].
  simpl. rewrite E. reflexivity.
Qed.

Lemma trim_idempotent (s : string) : Js.trim (Js.trim s) = Js.trim s.
Proof.
  unfold Js.trim.
  rewrite (trimStart_trimEnd (Js.trimStart s) (trimStart_idempotent s)).
  apply trimEnd_idempotent.
Qed.

Section MoreScanFacts.
Import Extractor ExtractorSpec.

Lemma valueFromNextLine_values (lines : list string) (line lbl : string)
    (extractedData : gmap string string) :
  (forall key value, extractedData !! key = Some value -> trimmed value) ->
  forall key value,
    valueFromNextLine lines line lbl extractedData !! key = Some value ->
    trimmed value.
Proof.
  intros Hdata key value. unfold valueFromNextLine.
  destruct (_ <? _)%Z; [| apply Hdata].
  destruct (lines !! _) as [next |]; [| apply Hdata].
  destruct (_ && _); [| apply Hdata].
  destruct (decide (lbl = key)) as [-> | Hne].
  - rewrite lookup_insert_eq. intros [= <-]. apply trim_idempotent.
  - rewrite lookup_insert_ne by exact Hne. apply Hdata.
Qed.

Lemma recordMatch_values (lines : list string) (line lbl pattern : string)
    (st : Scan) :
  (forall key value, scanData st !! key = Some value -> trimmed value) ->
  forall key value,
    scanData (recordMatch lines line lbl pattern st) !! key = Some value ->
    trimmed value.
Proof.
  intros Hdata key value. unfold recordMatch.
  destruct (Js.regexGroup pattern line) as [group |];
    [destruct (negb (Js.isEmpty group)) |]; simpl;
    try (apply valueFromNextLine_values; exact Hdata).
  destruct (decide (lbl = key)) as [-> | Hne].
  - rewrite lookup_insert_eq. intros [= <-]. apply trim_idempotent.
  - rewrite lookup_insert_ne by exact Hne. apply Hdata.
Qed.

(** The scan with the first phrase of the label that the line includes. *)
Lemma scanPatterns_find (lines : list string) (line lowerLine lbl : string)
    (pats : list string) (st : Scan) :
  scanPatterns lines line lowerLine lbl pats st
  = match List.find (Js.includes lowerLine) pats with
    | Some pattern => recordMatch lines line lbl pattern st
    | None => st
    end.
Proof.
  induction pats as [| pattern pats IH]; simpl; [reflexivity |].
  destruct (Js.includes lowerLine pattern); [reflexivity | exact IH].
Qed.

Lemma find_existsb {A : Type} (p : A -> bool) (l : list A) :
  existsb p l = true <-> exists x, List.find p l = Some x.
Proof.
  induction l as [| a l IH]; simpl.
  - split; [discriminate | intros [x H]; discriminate].
  - destruct (p a); simpl; [split; eauto | exact IH].
Qed.

Lemma scanPatterns_found (lines : list string) (line : string)
    (lp : LabelPattern) (st : Scan) :
  foundLabels
    (scanPatterns lines line (Js.trim (Js.toLowerCase line)) (label lp)
       (patterns lp) st)
  = (foundLabels st ++ if mentions line lp then [label lp] else [])%list.
Proof.
  rewrite scanPatterns_find. unfold mentions.
  destruct (List.find _ (patterns lp)) as [pattern |] eqn:E.
  - rewrite recordMatch_found.
    assert (existsb (Js.includes (Js.trim (Js.toLowerCase line))) (patterns lp)
            = true) as -> by (apply find_existsb; eauto).
    reflexivity.
  - destruct (existsb _ (patterns lp)) eqn:E'.
    + apply find_existsb in E' as [x Hx]. congruence.
    + rewrite app_nil_r. reflexivity.
Qed.

Lemma scanLabels_found (lines : list string) (line : string)
    (dictionary : list LabelPattern) :
  forall st,
    foundLabels
      (fold_left
         (fun st lp => scanPatterns lines line (Js.trim (Js.toLowerCase line))
                         (label lp) (patterns lp) st)
         dictionary st)
    = (foundLabels st
       ++ map label (List.filter (mentions line) dictionary))%list.
Proof.
  induction dictionary as [| lp dictionary IH]; intros st; simpl.
  - rewrite app_nil_r. reflexivity.
  - rewrite IH, scanPatterns_found.
    destruct (mentions line lp); simpl.
    + rewrite <- app_assoc. reflexivity.
    + rewrite app_nil_r. reflexivity.
Qed.

Lemma scanLine_found (lines : list string) (st : Scan) (line : string) :
  foundLabels (scanLine lines st line)
  = (foundLabels st ++ labelsMentioned line)%list.
Proof. exact (scanLabels_found lines line labelPatterns st). Qed.

Lemma scanLines_found_from (lines : list string) (ls : list string) :
  forall st,
    foundLabels (fold_left (scanLine lines) ls st)
    = (foundLabels st ++ concat (map labelsMentioned ls))%list.
Proof.
  induction ls as [| l ls IH]; intros st; cbn [fold_left map concat].
  - rewrite app_nil_r. reflexivity.
  - rewrite IH, scanLine_found, <- app_assoc. reflexivity.
Qed.

(** The labels the scan pushes, in the order it pushes them. *)
Lemma scanLines_found (lines : list string) :
  foundLabels (scanLines lines) = concat (map labelsMentioned lines).
Proof. unfold scanLines. rewrite scanLines_found_from. reflexivity. Qed.

Lemma scanLines_values (lines : list string) :
  forall key value,
    scanData (scanLines lines) !! key = Some value -> trimmed value.
Proof.
  unfold scanLines.
  assert (forall ls st,
             (forall key value, scanData st !! key = Some value -> trimmed value) ->
             forall key value,
               scanData (fold_left (scanLine lines) ls st) !! key = Some value ->
               trimmed value) as H.
  { induction ls as [| l ls IH]; intros st Hst; simpl; [exact Hst |].
    apply IH. unfold scanLine.
    generalize labelPatterns. intros dictionary. revert st Hst.
    induction dictionary as [| lp dictionary IHd]; intros st Hst; simpl;
      [exact Hst |].
    apply IHd. rewrite scanPatterns_find.
    destruct (List.find _ _); [apply recordMatch_values |]; exact Hst. }
  apply H. intros key value. simpl. rewrite lookup_empty. discriminate.
Qed.

End MoreScanFacts.

(** A label is among the labels found exactly when a line mentions it. *)
Lemma extractedLabels_mentioned (data : OcrData) (lbl : string) :
  lbl ∈ TextExtraction.extractedLabels (Extractor.extractFrom data)
  <-> exists line lp,
        line ∈ Extractor.nonEmptyLines (text data)
        /\ lp ∈ Extractor.labelPatterns
        /\ Extractor.label lp = lbl
        /\ ExtractorSpec.mentions line lp = true.
Proof.
  unfold Extractor.extractFrom; simpl.
  rewrite sort_perm, unique_elem, scanLines_found.
  rewrite list_elem_of_In, in_concat. split.
  - intros (labels & Hlabels & Hin).
    apply in_map_iff in Hlabels as (line & <- & Hline).
    unfold ExtractorSpec.labelsMentioned in Hin.
    apply in_map_iff in Hin as (lp & <- & Hlp).
    apply filter_In in Hlp as [Hlp Hmentions].
    exists line, lp. repeat split; try (apply list_elem_of_In; assumption).
    exact Hmentions.
  - intros (line & lp & Hline & Hlp & <- & Hmentions).
    exists (ExtractorSpec.labelsMentioned line).
    split.
    + apply in_map_iff. exists line. split; [reflexivity |].
      apply list_elem_of_In, Hline.
    + unfold ExtractorSpec.labelsMentioned.
      apply in_map, filter_In. split; [apply list_elem_of_In, Hlp |].
      exact Hmentions.
Qed.

(** X1. A label is among the labels the extractor returns exactly when some
    non-empty line of the recognised text, lower-cased and trimmed, includes
    one of the phrases of that label in the dictionary. *)
Theorem label_found_iff_mentioned (data : OcrData) (lbl : string) :
  lbl ∈ TextExtraction.extractedLabels (Extractor.extractFrom data)
  <-> exists line lp,
        line ∈ Extractor.nonEmptyLines (text data)
        /\ lp ∈ Extractor.labelPatterns
        /\ Extractor.label lp = lbl
        /\ exists pattern,
             pattern ∈ Extractor.patterns lp
             /\ Js.includes (Js.trim (Js.toLowerCase line)) pattern = true.
Proof.
  rewrite extractedLabels_mentioned. unfold ExtractorSpec.mentions. split.
  - intros (line & lp & Hline & Hlp & Hlbl & Hmentions).
    apply existsb_exists in Hmentions as (pattern & Hpattern & Hincl).
    exists line, lp. repeat (split; [assumption |]).
    exists pattern. split; [apply list_elem_of_In |]; assumption.
  - intros (line & lp & Hline & Hlp & Hlbl & pattern & Hpattern & Hincl).
    exists line, lp. repeat (split; [assumption |]).
    apply existsb_exists. exists pattern.
    split; [apply list_elem_of_In, Hpattern | exact Hincl].
Qed.

(** X2. Every value of the extracted data is trimmed: it has no white space
    at either end, whether it came from the group of the regular expression
    or from the next line. *)
Theorem extracted_values_are_trimmed (data : OcrData) (key value : string) :
  TextExtraction.extractedData (Extractor.extractFrom data) !! key = Some value ->
  Js.trim value = value.
Proof. apply scanLines_values. Qed.

Lemma extracted_values_are_trimmed_witness : Js.trim "John Smith" = "John Smith".
Proof.
  apply (extracted_values_are_trimmed Stub.ocr "Name" "John Smith").
  vm_compute. reflexivity.
Defined.

Section LastMention.
Import Extractor ExtractorSpec.

Lemma valueFromNextLine_other (lines : list string) (line lbl key : string)
    (extractedData : gmap string string) :
  lbl <> key ->
  valueFromNextLine lines line lbl extractedData !! key = extractedData !! key.
Proof.
  intros Hne. unfold valueFromNextLine.
  destruct (_ <? _)%Z; [| reflexivity].
  destruct (lines !! _) as [next |]; [| reflexivity].
  destruct (_ && _); [| reflexivity].
  apply lookup_insert_ne, Hne.
Qed.

Lemma recordMatch_other (lines : list string) (line lbl pattern key : string)
    (st : Scan) :
  lbl <> key ->
  scanData (recordMatch lines line lbl pattern st) !! key = scanData st !! key.
Proof.
  intros Hne. unfold recordMatch.
  destruct (Js.regexGroup pattern line) as [group |];
    [destruct (negb (Js.isEmpty group)) |]; simpl;
    try (apply valueFromNextLine_other, Hne).
  apply lookup_insert_ne, Hne.
Qed.

Lemma scanPatterns_other (lines : list string) (line lowerLine lbl key : string)
    (pats : list string) (st : Scan) :
  lbl <> key ->
  scanData (scanPatterns lines line lowerLine lbl pats st) !! key
  = scanData st !! key.
Proof.
  intros Hne. rewrite scanPatterns_find.
  destruct (List.find _ pats); [apply recordMatch_other, Hne | reflexivity].
Qed.

(** Entries with other labels leave the value of a label alone. *)
Lemma scanLabels_other (lines : list string) (line lowerLine key : string)
    (dictionary : list LabelPattern) :
  (forall lp, lp ∈ dictionary -> label lp <> key) ->
  forall st,
    scanData
      (fold_left
         (fun st lp => scanPatterns lines line lowerLine (label lp) (patterns lp) st)
         dictionary st) !! key
    = scanData st !! key.
Proof.
  induction dictionary as [| lp dictionary IH]; intros Hdict st;
    cbn [fold_left]; [reflexivity |].
  rewrite IH by (intros lp' Hlp'; apply Hdict; now right).
  apply scanPatterns_other, Hdict. now left.
Qed.

Lemma labels_distinct : NoDup (map label labelPatterns).
Proof. apply (bool_decide_unpack _). vm_compute. reflexivity. Qed.

Lemma dictionary_split (lp : LabelPattern) :
  lp ∈ labelPatterns ->
  exists before after,
    labelPatterns = (before ++ lp :: after)%list
    /\ (forall lp', lp' ∈ before -> label lp' <> label lp)
    /\ (forall lp', lp' ∈ after -> label lp' <> label lp).
Proof.
  intros Hlp. apply list_elem_of_split in Hlp as (before & after & Hsplit).
  exists before, after. split; [exact Hsplit |].
  pose proof labels_distinct as Hnodup. rewrite Hsplit in Hnodup.
  rewrite map_app in Hnodup. cbn [map] in Hnodup.
  apply NoDup_app in Hnodup as (_ & Hcross & Hrest).
  apply NoDup_cons in Hrest as [Hnotin _].
  split; intros lp' Hlp' Heq.
  - apply (Hcross (label lp')).
    + apply list_elem_of_In, in_map, list_elem_of_In, Hlp'.
    + rewrite Heq. now left.
  - apply Hnotin. rewrite <- Heq.
    apply list_elem_of_In, in_map, list_elem_of_In, Hlp'.
Qed.

(** A line that does not mention a label leaves its value alone. *)
Lemma scanLine_not_mentioned (lines : list string) (st : Scan) (line : string)
    (lp : LabelPattern) :
  lp ∈ labelPatterns -> mentions line lp = false ->
  scanData (scanLine lines st line) !! label lp = scanData st !! label lp.
Proof.
  intros Hlp Hno. destruct (dictionary_split lp Hlp)
    as (before & after & Hsplit & Hbefore & Hafter).
  unfold scanLine. rewrite Hsplit, fold_left_app. cbn [fold_left].
  rewrite scanLabels_other by exact Hafter.
  rewrite scanPatterns_find.
  destruct (List.find _ (patterns lp)) as [pattern |] eqn:E.
  - assert (mentions line lp = true) by (apply find_existsb; eauto). congruence.
  - apply scanLabels_other, Hbefore.
Qed.

(** A line that carries a value after the phrase sets the value of the
    label. *)
Lemma scanLine_inline (lines : list string) (st : Scan) (line : string)
    (lp : LabelPattern) (pattern group : string) :
  lp ∈ labelPatterns ->
  List.find (Js.includes (Js.trim (Js.toLowerCase line))) (patterns lp)
  = Some pattern ->
  Js.regexGroup pattern line = Some group ->
  scanData (scanLine lines st line) !! label lp = Some (Js.trim group).
Proof.
  intros Hlp Hfind Hgroup. destruct (dictionary_split lp Hlp)
    as (before & after & Hsplit & Hbefore & Hafter).
  unfold scanLine. rewrite Hsplit, fold_left_app. cbn [fold_left].
  rewrite scanLabels_other by exact Hafter.
  rewrite scanPatterns_find, Hfind, (recordMatch_inline _ _ _ _ group _ Hgroup).
  cbn [scanData]. apply lookup_insert_eq.
Qed.

End LastMention.

(** X3. When a line gives a value for a label on the line itself and no later
    line mentions that label, the extracted value of the label is the trimmed
    group of that line, whatever earlier lines gave: a later inline value
    replaces an earlier one. *)
Theorem last_inline_value_wins (data : OcrData) (before after : list string)
    (line : string) (lp : Extractor.LabelPattern) (pattern group : string) :
  Extractor.nonEmptyLines (text data) = (before ++ line :: after)%list ->
  lp ∈ Extractor.labelPatterns ->
  List.find (Js.includes (Js.trim (Js.toLowerCase line))) (Extractor.patterns lp)
  = Some pattern ->
  Js.regexGroup pattern line = Some group ->
  (forall later, later ∈ after -> ExtractorSpec.mentions later lp = false) ->
  TextExtraction.extractedData (Extractor.extractFrom data) !! Extractor.label lp
  = Some (Js.trim group).
Proof.
  intros Hlines Hlp Hfind Hgroup Hafter.
  unfold Extractor.extractFrom; cbn [TextExtraction.extractedData].
  unfold Extractor.scanLines. rewrite Hlines at 2.
  rewrite fold_left_app. cbn [fold_left].
  set (lines := Extractor.nonEmptyLines (text data)).
  set (st := fold_left (Extractor.scanLine lines) before Extractor.emptyScan).
  assert (forall ls s,
             (forall later, later ∈ ls -> ExtractorSpec.mentions later lp = false) ->
             Extractor.scanData (fold_left (Extractor.scanLine lines) ls s)
               !! Extractor.label lp
             = Extractor.scanData s !! Extractor.label lp) as Hkeep.
  { induction ls as [| l ls IH]; intros s Hls; cbn [fold_left]; [reflexivity |].
    rewrite IH by (intros later Hl; apply Hls; now right).
    apply scanLine_not_mentioned; [exact Hlp | apply Hls; now left]. }
  rewrite Hkeep by exact Hafter.
  apply (scanLine_inline lines st line lp pattern group Hlp Hfind Hgroup).
Qed.

Lemma last_inline_value_wins_witness :
  TextExtraction.extractedData (Extractor.extractFrom Stub2.twoNames)
    !! Extractor.label Stub2.nameLabel
  = Some (Js.trim "Bob").
Proof.
  apply (last_inline_value_wins Stub2.twoNames ["Name: Ann"] ["Sex: F"]
           "Name: Bob" Stub2.nameLabel "name" "Bob").
  - vm_compute. reflexivity.
  - apply list_elem_of_In. left. reflexivity.
  - vm_compute. reflexivity.
  - vm_compute. reflexivity.
  - intros later Hlater. apply list_elem_of_singleton in Hlater. subst later.
    vm_compute. reflexivity.
Defined.

(** X4. The extracted data never has more keys than there are labels, and
    there are at most thirteen labels, however long the text is. *)
Theorem extraction_counts (data : OcrData) :
  let r := Extractor.extractFrom data in
  (size (TextExtraction.extractedData r)
   <= length (TextExtraction.extractedLabels r))%nat
  /\ (length (TextExtraction.extractedLabels r) <= 13)%nat.
Proof.
  destruct (extractFrom_wellFormed data) as (Hkeys & Hlabels & Hnodup & _).
  set (r := Extractor.extractFrom data) in *. cbn zeta. split.
  - rewrite <- (length_map_to_list (TextExtraction.extractedData r)).
    rewrite <- (length_fmap fst).
    apply submseteq_length, NoDup_submseteq; [apply NoDup_fst_map_to_list |].
    intros key Hkey. apply Hkeys.
    apply list_elem_of_fmap in Hkey as ([k v] & -> & Hkv).
    apply elem_of_map_to_list in Hkv. simpl. eauto.
  - change 13%nat with (length Extractor.canonicalLabels).
    apply submseteq_length, NoDup_submseteq; assumption.
Qed.

(** ** The order of the default sort *)

Lemma ascii_compare_N (a b : ascii) :
  Ascii.compare a b = N.compare (N_of_ascii a) (N_of_ascii b).
Proof. reflexivity. Qed.

Lemma ascii_compare_eq (a b : ascii) : Ascii.compare a b = Eq -> a = b.
Proof.
  rewrite ascii_compare_N. intros H. apply N.compare_eq in H.
  rewrite <- (ascii_N_embedding a), <- (ascii_N_embedding b), H. reflexivity.
Qed.

Lemma string_compare_lt_trans (s1 : string) :
  forall s2 s3,
    String.compare s1 s2 = Lt -> String.compare s2 s3 = Lt ->
    String.compare s1 s3 = Lt.
Proof.
  induction s1 as [| c1 s1 IH]; intros [| c2 s2] [| c3 s3]; simpl;
    try discriminate; try reflexivity.
  rewrite !ascii_compare_N.
  destruct (N.compare_spec (N_of_ascii c1) (N_of_ascii c2)) as [E12 | L12 | G12];
    destruct (N.compare_spec (N_of_ascii c2) (N_of_ascii c3)) as [E23 | L23 | G23];
    try discriminate; intros H12 H23.
  - rewrite E12, E23, N.compare_refl. eapply IH; eassumption.
  - rewrite E12. apply N.compare_lt_iff in L23. rewrite L23. reflexivity.
  - rewrite <- E23. apply N.compare_lt_iff in L12. rewrite L12. reflexivity.
  - assert (N_of_ascii c1 < N_of_ascii c3)%N as L by lia.
    apply N.compare_lt_iff in L. rewrite L. reflexivity.
Qed.

Lemma leb_lt_or_eq (s1 s2 : string) :
  String.leb s1 s2 = true <-> String.compare s1 s2 = Lt \/ s1 = s2.
Proof.
  unfold String.leb. destruct (String.compare s1 s2) eqn:E.
  - apply String.compare_eq_iff in E. tauto.
  - tauto.
  - split; [discriminate |]. intros [H | ->]; [discriminate |].
    assert (String.compare s2 s2 = Eq) as Hrefl.
    { clear. induction s2 as [| c s IH]; simpl; [reflexivity |].
      rewrite ascii_compare_N, N.compare_refl. exact IH. }
    congruence.
Qed.

Lemma ascending_trans (s1 s2 s3 : string) :
  Extractor.ascending s1 s2 -> Extractor.ascending s2 s3 ->
  Extractor.ascending s1 s3.
Proof.
  unfold Extractor.ascending. rewrite !leb_lt_or_eq.
  intros [H12 | ->] [H23 | ->]; auto.
  left. eapply string_compare_lt_trans; eassumption.
Qed.

(** Two ascending lists without repetition that hold the same strings are
    the same list. *)
Lemma ascending_unique (l1 : list string) :
  forall l2,
    StronglySorted Extractor.ascending l1 -> StronglySorted Extractor.ascending l2 ->
    NoDup l1 -> NoDup l2 ->
    (forall x, x ∈ l1 <-> x ∈ l2) ->
    l1 = l2.
Proof.
  induction l1 as [| x l1 IH]; intros [| y l2] Hs1 Hs2 Hn1 Hn2 Hsame.
  - reflexivity.
  - exfalso. apply (elem_of_nil y), Hsame. now left.
  - exfalso. apply (elem_of_nil x), Hsame. now left.
  - apply StronglySorted_inv in Hs1 as [Hs1 Hx].
    apply StronglySorted_inv in Hs2 as [Hs2 Hy].
    apply NoDup_cons in Hn1 as [Hx1 Hn1]. apply NoDup_cons in Hn2 as [Hy2 Hn2].
    rewrite Forall_forall in Hx, Hy.
    assert (x = y) as ->.
    { assert (x ∈ y :: l2) as Hxin by (apply Hsame; now left).
      assert (y ∈ x :: l1) as Hyin by (apply Hsame; now left).
      apply elem_of_cons in Hxin as [-> | Hxin]; [reflexivity |].
      apply elem_of_cons in Hyin as [-> | Hyin]; [reflexivity |].
      apply String.leb_antisym.
      - apply Hx, Hyin.
      - apply Hy, Hxin. }
    f_equal. apply IH; try assumption.
    intros z. split; intros Hz.
    + assert (z ∈ y :: l2) as H by (apply Hsame; now right).
      apply elem_of_cons in H as [-> | H]; [contradiction | exact H].
    + assert (z ∈ y :: l1) as H by (apply Hsame; now right).
      apply elem_of_cons in H as [-> | H]; [contradiction | exact H].
Qed.

Lemma sort_strongly_sorted (arr : list string) :
  StronglySorted Extractor.ascending (Js.sort arr).
Proof.
  apply Sorted_StronglySorted; [| apply sort_sorted].
  intros s1 s2 s3. apply ascending_trans.
Qed.

(** X5. The labels returned depend on the set of non-empty lines only, not on
    their order nor on how often a line occurs. *)
Theorem labels_do_not_depend_on_line_order (data1 data2 : OcrData) :
  (forall line,
      line ∈ Extractor.nonEmptyLines (text data1)
      <-> line ∈ Extractor.nonEmptyLines (text data2)) ->
  TextExtraction.extractedLabels (Extractor.extractFrom data1)
  = TextExtraction.extractedLabels (Extractor.extractFrom data2).
Proof.
  intros Hlines.
  apply ascending_unique.
  - apply sort_strongly_sorted.
  - apply sort_strongly_sorted.
  - apply (extractFrom_wellFormed data1).
  - apply (extractFrom_wellFormed data2).
  - intros lbl. rewrite !extractedLabels_mentioned.
    split; intros (line & lp & Hline & Hrest); exists line, lp;
      (split; [apply Hlines, Hline | exact Hrest]).
Qed.

Lemma labels_do_not_depend_on_line_order_witness :
  TextExtraction.extractedLabels (Extractor.extractFrom Stub.ocr)
  = TextExtraction.extractedLabels (Extractor.extractFrom Stub2.reorderedSample).
Proof.
  apply (labels_do_not_depend_on_line_order Stub.ocr Stub2.reorderedSample).
  intros line.
  assert (Extractor.nonEmptyLines (text Stub.ocr)
          = ["Name: John Smith"; "Date of Birth"; "01/01/1990"]) as ->
    by (vm_compute; reflexivity).
  assert (Extractor.nonEmptyLines (text Stub2.reorderedSample)
          = ["Date of Birth"; "01/01/1990"; "Name: John Smith"]) as ->
    by (vm_compute; reflexivity).
  rewrite !elem_of_cons, !elem_of_nil. tauto.
Defined.

Section MoreGateFacts.
Import Quality.

(** The decision reads the loop and the length only. *)
Lemma checkData_same (data data' : list Z) :
  length data = length data' ->
  edgeStrength data = edgeStrength data' ->
  checkData data = checkData data'.
Proof.
  intros Hlen Hedges. unfold checkData.
  destruct data as [| byte data], data' as [| byte' data'];
    try discriminate Hlen; [reflexivity |].
  unfold edgeRatio. rewrite Hlen, Hedges. reflexivity.
Qed.

Lemma edgeLoop_same (data data' : list Z) :
  length data = length data' ->
  (forall k, (0 <= k)%Z -> (4 * k < Z.of_nat (length data) - 4)%Z ->
             differs data (4 * k) = differs data' (4 * k)) ->
  forall fuel k acc,
    (0 <= k)%Z ->
    edgeLoop fuel data (4 * k) acc = edgeLoop fuel data' (4 * k) acc.
Proof.
  intros Hlen Hdiffers. induction fuel as [| fuel IH]; intros k acc Hk;
    simpl; [reflexivity |].
  rewrite <- Hlen.
  destruct (Z.ltb_spec (4 * k) (Z.of_nat (length data) - 4)); [| reflexivity].
  rewrite (Hdiffers k Hk) by assumption.
  replace (4 * k + 4)%Z with (4 * (k + 1))%Z by lia.
  apply IH. lia.
Qed.

Lemma edgeStrength_same (data data' : list Z) :
  length data = length data' ->
  (forall k, (0 <= k)%Z -> (4 * k < Z.of_nat (length data) - 4)%Z ->
             differs data (4 * k) = differs data' (4 * k)) ->
  edgeStrength data = edgeStrength data'.
Proof.
  intros Hlen Hdiffers. unfold edgeStrength. rewrite <- Hlen.
  change 0%Z with (4 * 0)%Z at 1 3.
  apply edgeLoop_same; [exact Hlen | exact Hdiffers | lia].
Qed.

Lemma luminance_colour_bytes (data data' : list Z) (k : Z) :
  (0 <= k)%Z ->
  (forall (pixel channel : nat),
      (channel < 3)%nat ->
      data !! (4 * pixel + channel)%nat = data' !! (4 * pixel + channel)%nat) ->
  luminance data (4 * k) = luminance data' (4 * k).
Proof.
  intros Hk Hsame. unfold luminance, sample.
  replace (Z.to_nat (4 * k)) with (4 * Z.to_nat k + 0)%nat by lia.
  replace (Z.to_nat (4 * k + 1)) with (4 * Z.to_nat k + 1)%nat by lia.
  replace (Z.to_nat (4 * k + 2)) with (4 * Z.to_nat k + 2)%nat by lia.
  rewrite !Hsame by lia. reflexivity.
Qed.

End MoreGateFacts.

(** X6. The quality gate never reads the alpha channel: two buffers of the
    same length with the same red, green and blue bytes have the same edge
    count and get the same decision. *)
Theorem gate_ignores_alpha (data data' : list Z) :
  length data = length data' ->
  (forall pixel channel : nat,
      (channel < 3)%nat ->
      data !! (4 * pixel + channel)%nat = data' !! (4 * pixel + channel)%nat) ->
  Quality.edgeStrength data = Quality.edgeStrength data'
  /\ Quality.checkData data = Quality.checkData data'.
Proof.
  intros Hlen Hsame.
  assert (Quality.edgeStrength data = Quality.edgeStrength data') as Hedges.
  { apply edgeStrength_same; [exact Hlen |]. intros k Hk _.
    unfold Quality.differs.
    replace (4 * k + 4)%Z with (4 * (k + 1))%Z by lia.
    rewrite (luminance_colour_bytes data data' k Hk Hsame).
    rewrite (luminance_colour_bytes data data' (k + 1) ltac:(lia) Hsame).
    reflexivity. }
  split; [exact Hedges | apply checkData_same; assumption].
Qed.

Lemma gate_ignores_alpha_witness :
  Quality.edgeStrength Stub2.opaquePixels = Quality.edgeStrength Stub2.clearPixels
  /\ Quality.checkData Stub2.opaquePixels = Quality.checkData Stub2.clearPixels.
Proof.
  apply (gate_ignores_alpha Stub2.opaquePixels Stub2.clearPixels).
  - reflexivity.
  - intros pixel channel Hchannel.
    destruct pixel as [| [| pixel]];
      [destruct channel as [| [| [| channel]]]; first [reflexivity | lia] ..
      |].
    rewrite !lookup_ge_None_2 by (simpl; lia). reflexivity.
Defined.

(** X7. On the analysis square the loop counts at most 159999 edges, so the
    edge ratio of the gate is at least 0 and stays below 1. *)
Theorem edge_count_bounds (data : list Z) :
  Z.of_nat (length data) = (4 * Quality.pixels)%Z ->
  (0 <= Quality.edgeStrength data <= 159999)%Z
  /\ (0 <= Quality.edgeRatio data < 1)%Q.
Proof.
  intros Hlen.
  assert (0 <= Quality.edgeStrength data <= 159999)%Z as Hbounds.
  { rewrite (edgeStrength_count data Quality.pixels)
      by (first [exact Hlen | unfold Quality.pixels, Quality.analysisSize; lia]).
    pose proof (count_bounds (fun j => Quality.differs data (4 * j)%Z)
                  (Z.to_nat (Quality.pixels - 1)) 0) as H.
    rewrite Z2Nat.id in H by (vm_compute; discriminate).
    change (Quality.pixels - 1)%Z with 159999%Z in H. exact H. }
  split; [exact Hbounds |].
  rewrite (edgeRatio_value data Hlen). unfold Double.div.
  destruct Hbounds as [Hlow Hhigh].
  rewrite Zle_Qle in Hlow, Hhigh.
  change (inject_Z 0) with 0%Q in Hlow. change (inject_Z 159999) with 159999%Q in Hhigh.
  assert (0 / 160000 <= inject_Z (Quality.edgeStrength data) / 160000)%Q as Hfrom
    by (apply Qmult_le_compat_r; [exact Hlow | discriminate]).
  assert (inject_Z (Quality.edgeStrength data) / 160000 <= 159999 / 160000)%Q as Hto
    by (apply Qmult_le_compat_r; [exact Hhigh | discriminate]).
  apply round_le in Hfrom, Hto.
  change (Double.round (0 / 160000)) with 0%Q in Hfrom.
  assert (Double.round (159999 / 160000) < 1)%Q as Hbelow
    by (vm_compute; reflexivity).
  split; lra.
Qed.

Lemma round_nonneg (x : Q) : (0 <= x)%Q -> (0 <= Double.round x)%Q.
Proof. intros H. apply (round_le 0 x H). Qed.

(** Three images and their canvases. *)
Example canvas_sizes :
  Matcher.canvasSize (Matcher.resized 57 800) = (56, 800)%Z
  /\ Matcher.canvasSize (Matcher.resized 300 408) = (300, 407)%Z
  /\ Matcher.canvasSize (Matcher.resized 1000 333) = (800, 266)%Z
  /\ Matcher.canvasSize (Matcher.resized 1600 1200) = (800, 600)%Z.
Proof. repeat split; vm_compute; reflexivity. Qed.



(** ** Runs of [verifyDocument] *)

Section RunFacts.
Context {File Image Worker : Type}.
Variable loadImageFromFile : File -> Outcome Image.
Variable imageWidth imageHeight : Image -> Q.
Variable analysisData : Image -> Outcome (list Z).
Variable correlation : Image -> Image -> Q * Q -> Q * Q -> Outcome Q.
Variable recognize : Worker -> File -> Outcome OcrData.

Local Abbreviation run :=
  (verifyDocument loadImageFromFile imageWidth imageHeight analysisData
                  correlation recognize).

(** What a run throws is an [Error]: the guard's, or the one of the [catch]
    block. *)
Lemma run_throws_Error (idImageFile referenceImageFile : File)
    (onProgress : option (string -> Z -> Outcome unit)) (w w' : @World Worker)
    (e : Thrown) :
  run idImageFile referenceImageFile onProgress w = (w', throw e) ->
  (notInitialized (service w) = true
   /\ e = ErrorInstance "Verification service not initialized" /\ w' = w)
  \/ (notInitialized (service w) = false
      /\ exists cause, e = ErrorInstance ("Verification failed: " +:+ cause)).
Proof.
  destruct (notInitialized (service w)) eqn:Hready.
  - intros Hrun. left. unfold verifyDocument, bind, this, raise in Hrun.
    simpl in Hrun. rewrite Hready in Hrun. injection Hrun as <- <-.
    repeat split.
  - rewrite (run_rethrows _ _ _ _ _ _ _ _ _ _ Hready).
    destruct (verifyDocumentBody _ _ _ _ _ _ _ _ _ _) as [w1 [cause | r]];
      intros Hrun; [| discriminate].
    injection Hrun as _ <-. right. split; [reflexivity |]. eexists; reflexivity.
Qed.

(** The results of a completed run are those of the two stages on the images
    that were loaded. *)
Lemma run_results (idImageFile referenceImageFile : File)
    (onProgress : option (string -> Z -> Outcome unit)) (w w' : @World Worker)
    (r : VerificationResult) :
  run idImageFile referenceImageFile onProgress w = (w', ok r) ->
  exists idImage referenceImage,
    loadImageFromFile idImageFile = ok idImage
    /\ loadImageFromFile referenceImageFile = ok referenceImage
    /\ templateMatch r
       = matcherResult imageWidth imageHeight correlation idImage referenceImage
    /\ textExtraction r = extractorResult recognize (service w) idImageFile.
Proof.
  intros Hrun. unfold matcherResult, extractorResult. unfold_service.
  repeat next_outcome; try discriminate.
  all: injection Hrun as _ <-; simpl.
  all: eexists _, _; split; [reflexivity |]; split; [reflexivity |].
  all: repeat match goal with
              | H : _ = _ |- _ => rewrite H
              end; split; reflexivity.
Qed.

End RunFacts.

(** X9. The events a run adds are an initial segment of the trace of a
    completed run: the eleven events with a callback, the five stages
    without; they are the whole trace when the run returns, and the
    percentages reported are an initial segment of 5, 10, 30, 60, 90, 100. *)
Theorem run_trace_is_prefix {File Image Worker : Type}
    (loadImageFromFile : File -> Outcome Image)
    (imageWidth imageHeight : Image -> Q)
    (analysisData : Image -> Outcome (list Z))
    (correlation : Image -> Image -> Q * Q -> Q * Q -> Outcome Q)
    (recognize : Worker -> File -> Outcome OcrData)
    (idImageFile referenceImageFile : File)
    (onProgress : option (string -> Z -> Outcome unit))
    (w : @World Worker) :
  let after :=
    verifyDocument loadImageFromFile imageWidth imageHeight analysisData
      correlation recognize idImageFile referenceImageFile onProgress w in
  exists trace rest reported,
    events (fst after) = (events w ++ trace)%list
    /\ expectedTrace onProgress = (trace ++ rest)%list
    /\ [5; 10; 30; 60; 90; 100]%Z = (progressValues trace ++ reported)%list
    /\ (forall r, snd after = ok r -> rest = []).
Proof.
  unfold_service.
  destruct onProgress as [callback |]; simpl.
  all: repeat next_outcome.
  all: rewrite <- ?app_assoc; simpl.
  all: first
    [ eexists _, _, _; split; [reflexivity |]; split; [reflexivity |];
      split; [reflexivity |]; intros r Hr; first [discriminate | reflexivity]
    | eexists [], _, _; split; [symmetry; apply app_nil_r |];
      split; [reflexivity |]; split; [reflexivity |]; intros r Hr; discriminate ].
Qed.

(** ** The black image *)

Lemma blackData_length : Z.of_nat (length blackData) = (4 * Quality.pixels)%Z.
Proof.
  unfold blackData. rewrite render_length, Nat2Z.inj_mul, Z2Nat.id;
    [reflexivity | vm_compute; discriminate].
Qed.

Lemma blackData_edgeStrength : Quality.edgeStrength blackData = 0%Z.
Proof.
  unfold blackData. rewrite render_edgeStrength.
  apply count_none. intros j _. reflexivity.
Qed.

Lemma blackData_rejected :
  Quality.checkData blackData = throw (ErrorInstance Quality.lowQualityMessage).
Proof.
  apply (checkData_throws blackData blackData_length).
  rewrite blackData_edgeStrength. reflexivity.
Qed.

Lemma edge_count_bounds_witness :
  (0 <= Quality.edgeStrength blackData <= 159999)%Z
  /\ (0 <= Quality.edgeRatio blackData < 1)%Q.
Proof. apply (edge_count_bounds blackData). exact blackData_length. Defined.

(** X10. When the gate rejects the pixels of the identity image, the run ends
    there: the callback has been called once, with 5, no stage after the gate
    is entered, neither image is loaded for matching, and the caller gets the
    gate's message behind the prefix. *)
Theorem gate_rejection_ends_the_run {File Image Worker : Type}
    (loadImageFromFile : File -> Outcome Image)
    (imageWidth imageHeight : Image -> Q)
    (analysisData : Image -> Outcome (list Z))
    (correlation : Image -> Image -> Q * Q -> Q * Q -> Outcome Q)
    (recognize : Worker -> File -> Outcome OcrData)
    (idImageFile referenceImageFile : File)
    (callback : string -> Z -> Outcome unit)
    (w : @World Worker) (idImage : Image) (data : list Z) :
  notInitialized (service w) = false ->
  callback "Validating image quality..." 5%Z = ok tt ->
  loadImageFromFile idImageFile = ok idImage ->
  analysisData idImage = ok data ->
  Z.of_nat (length data) = (4 * Quality.pixels)%Z ->
  (Quality.edgeStrength data < 16000)%Z ->
  verifyDocument loadImageFromFile imageWidth imageHeight analysisData
    correlation recognize idImageFile referenceImageFile (Some callback) w
  = ({| service := service w;
        events := (events w ++ [OnProgress "Validating image quality..." 5;
                                Enter ValidateImageQuality])%list |},
     throw (ErrorInstance ("Verification failed: " +:+ Quality.lowQualityMessage))).
Proof.
  intros Hready Hcallback Hload Hdata Hlen Hedges.
  pose proof (proj2 (checkData_throws data Hlen) Hedges) as Hcheck.
  rewrite (run_rethrows _ _ _ _ _ _ _ _ _ _ Hready).
  unfold verifyDocumentBody, notify, validateImageQuality, bind, await, emit.
  simpl. rewrite Hcallback; simpl. rewrite Hload; simpl. rewrite Hdata; simpl.
  rewrite Hcheck; simpl. rewrite <- app_assoc. reflexivity.
Qed.

Lemma gate_rejection_ends_the_run_witness :
  verifyDocument Stub.loadImageFromFile Stub.imageWidth Stub.imageHeight
    Stub2.blackCanvas Stub.correlation Stub.recognize
    "id.png" "template.png" (Some Stub.onProgress) Stub.start
  = ({| service := service Stub.start;
        events := (events Stub.start
                   ++ [OnProgress "Validating image quality..." 5;
                       Enter ValidateImageQuality])%list |},
     throw (ErrorInstance ("Verification failed: " +:+ Quality.lowQualityMessage))).
Proof.
  apply (gate_rejection_ends_the_run Stub.loadImageFromFile Stub.imageWidth
           Stub.imageHeight Stub2.blackCanvas Stub.correlation Stub.recognize
           "id.png" "template.png" Stub.onProgress Stub.start "id.png" blackData).
  - reflexivity.
  - reflexivity.
  - reflexivity.
  - reflexivity.
  - exact blackData_length.
  - rewrite blackData_edgeStrength. reflexivity.
Defined.

(** X11. A completed run is valid exactly when the correlation came back with
    a score above 0.3 and the recognition came back with a text of which some
    line mentions a phrase of the dictionary; a stage that failed makes the
    run invalid. *)
Theorem valid_run_characterised {File Image Worker : Type}
    (loadImageFromFile : File -> Outcome Image)
    (imageWidth imageHeight : Image -> Q)
    (analysisData : Image -> Outcome (list Z))
    (correlation : Image -> Image -> Q * Q -> Q * Q -> Outcome Q)
    (recognize : Worker -> File -> Outcome OcrData)
    (idImageFile referenceImageFile : File)
    (onProgress : option (string -> Z -> Outcome unit))
    (w w' : @World Worker) (r : VerificationResult) :
  verifyDocument loadImageFromFile imageWidth imageHeight analysisData
    correlation recognize idImageFile referenceImageFile onProgress w
  = (w', ok r) ->
  Overall.isValid (overall r) = true
  <-> exists (idImage referenceImage : Image) (score : Q) (worker : Worker)
             (data : OcrData),
        loadImageFromFile idImageFile = ok idImage
        /\ loadImageFromFile referenceImageFile = ok referenceImage
        /\ correlation idImage referenceImage
             (Matcher.resized (imageWidth idImage) (imageHeight idImage))
             (Matcher.resized (imageWidth referenceImage) (imageHeight referenceImage))
           = ok score
        /\ (0.3 < score)%Q
        /\ tesseractWorker (service w) = Some worker
        /\ recognize worker idImageFile = ok data
        /\ exists line lp,
             line ∈ Extractor.nonEmptyLines (text data)
             /\ lp ∈ Extractor.labelPatterns
             /\ ExtractorSpec.mentions line lp = true.
Proof.
  intros Hrun.
  destruct (run_results _ _ _ _ _ _ _ _ _ _ _ _ Hrun)
    as (idImage & referenceImage & Hid & Href & Htemplate & Htext).
  rewrite (run_overall _ _ _ _ _ _ _ _ _ _ _ _ Hrun), aggregate_isValid.
  rewrite Htemplate, Htext. unfold matcherResult, extractorResult.
  split.
  - intros [Hmatch Hlabels].
    destruct (correlation idImage referenceImage _ _) as [e | score] eqn:Hscore;
      [discriminate |].
    destruct (tesseractWorker (service w)) as [worker |] eqn:Hworker;
      [| contradiction].
    destruct (recognize worker idImageFile) as [e | data] eqn:Hdata;
      [contradiction |].
    exists idImage, referenceImage, score, worker, data.
    split; [exact Hid |]. split; [exact Href |]. split; [exact Hscore |].
    split; [apply Qltb_lt; exact Hmatch |].
    split; [first [exact Hworker | reflexivity] |].
    split; [first [exact Hdata | reflexivity] |].
    destruct (TextExtraction.extractedLabels (Extractor.extractFrom data))
      as [| lbl labels] eqn:Hl; [contradiction |].
    assert (lbl ∈ TextExtraction.extractedLabels (Extractor.extractFrom data))
      as Hin by (rewrite Hl; left).
    apply extractedLabels_mentioned in Hin.
    destruct Hin as (line & lp & Hline & Hlp & _ & Hmentions).
    exists line, lp. repeat (split; [assumption |]). exact Hmentions.
  - intros (idImage' & referenceImage' & score & worker & data & Hid' & Href'
            & Hscore & Hgt & Hworker & Hdata & line & lp & Hline & Hlp & Hm).
    rewrite Hid in Hid'. injection Hid' as <-.
    rewrite Href in Href'. injection Href' as <-.
    rewrite Hscore, Hworker, Hdata. split.
    + apply Qltb_lt. exact Hgt.
    + assert (Extractor.label lp
              ∈ TextExtraction.extractedLabels (Extractor.extractFrom data)) as Hin.
      { apply extractedLabels_mentioned. exists line, lp.
        repeat (split; [first [assumption | reflexivity] |]). exact Hm. }
      intros Hnil.
      change (TextExtraction.extractedLabels (Extractor.extractFrom data) = [])
        in Hnil.
      rewrite Hnil in Hin. inversion Hin.
Qed.

Lemma valid_run_characterised_witness :
  Overall.isValid (overall Stub.result) = true
  <-> exists (idImage referenceImage : string) (score : Q) (worker : unit)
             (data : OcrData),
        Stub.loadImageFromFile "id.png" = ok idImage
        /\ Stub.loadImageFromFile "template.png" = ok referenceImage
        /\ Stub.correlation idImage referenceImage
             (Matcher.resized (Stub.imageWidth idImage) (Stub.imageHeight idImage))
             (Matcher.resized (Stub.imageWidth referenceImage)
                (Stub.imageHeight referenceImage))
           = ok score
        /\ (0.3 < score)%Q
        /\ tesseractWorker (service Stub.start) = Some worker
        /\ Stub.recognize worker "id.png" = ok data
        /\ exists line lp,
             line ∈ Extractor.nonEmptyLines (text data)
             /\ lp ∈ Extractor.labelPatterns
             /\ ExtractorSpec.mentions line lp = true.
Proof.
  apply (valid_run_characterised Stub.loadImageFromFile Stub.imageWidth
           Stub.imageHeight Stub.sharpCanvas Stub.correlation Stub.recognize
           "id.png" "template.png" (Some Stub.onProgress)
           Stub.start Stub.completed Stub.result).
  vm_compute. reflexivity.
Defined.

(** ** The life cycle of the service *)

(** X12. Once [cleanup] has terminated the worker, the service has no worker
    and keeps its OpenCV flag, [verifyDocument] refuses every call with the
    not-initialized error, and a second [cleanup] does nothing; when
    [terminate] throws, [cleanup] throws the same value and the worker
    stays. *)
Theorem cleanup_then_verify {File Image Worker : Type}
    (loadImageFromFile : File -> Outcome Image)
    (imageWidth imageHeight : Image -> Q)
    (analysisData : Image -> Outcome (list Z))
    (correlation : Image -> Image -> Q * Q -> Q * Q -> Outcome Q)
    (recognize : Worker -> File -> Outcome OcrData)
    (terminate : Worker -> Outcome unit)
    (idImageFile referenceImageFile : File)
    (onProgress : option (string -> Z -> Outcome unit))
    (w : @World Worker) (worker : Worker) :
  tesseractWorker (service w) = Some worker ->
  let after := fst (cleanup terminate w) in
  match terminate worker with
  | inr _ =>
      snd (cleanup terminate w) = ok tt
      /\ tesseractWorker (service after) = None
      /\ isOpenCVReady (service after) = isOpenCVReady (service w)
      /\ events after = events w
      /\ verifyDocument loadImageFromFile imageWidth imageHeight analysisData
           correlation recognize idImageFile referenceImageFile onProgress after
         = (after, throw (ErrorInstance "Verification service not initialized"))
      /\ cleanup terminate after = (after, ok tt)
  | inl e => cleanup terminate w = (w, throw e)
  end.
Proof.
  intros Hworker. unfold cleanup, verifyDocument, notInitialized, bind, this,
    await, setWorker, raise, ret.
  simpl. rewrite Hworker. simpl.
  destruct (terminate worker) as [e | []]; simpl; [reflexivity |].
  rewrite orb_true_r. repeat split.
Qed.

Lemma cleanup_then_verify_witness :
  let after := fst (cleanup Stub2.terminate Stub.start) in
  snd (cleanup Stub2.terminate Stub.start) = ok tt
  /\ tesseractWorker (service after) = None
  /\ isOpenCVReady (service after) = isOpenCVReady (service Stub.start)
  /\ events after = events Stub.start
  /\ verifyDocument Stub.loadImageFromFile Stub.imageWidth Stub.imageHeight
       Stub.sharpCanvas Stub.correlation Stub.recognize
       "id.png" "template.png" (Some Stub.onProgress) after
     = (after, throw (ErrorInstance "Verification service not initialized"))
  /\ cleanup Stub2.terminate after = (after, ok tt).
Proof.
  apply (cleanup_then_verify Stub.loadImageFromFile Stub.imageWidth
           Stub.imageHeight Stub.sharpCanvas Stub.correlation Stub.recognize
           Stub2.terminate "id.png" "template.png" (Some Stub.onProgress)
           Stub.start tt).
  reflexivity.
Defined.

(** X13. [initialize] stays pending exactly when OpenCV is absent and the
    script never reports its runtime, and then nothing is written; it is
    rejected only by [createWorker], with the OpenCV flag already set and no
    worker; and when it is fulfilled the service is initialized, with the
    worker it had, if it had one. *)
Theorem initialize_outcomes {Worker : Type} (browser : OpenCVLoading)
    (createWorker : Outcome Worker) (w : @World Worker) :
  match initialize browser createWorker w with
  | (w', Pending) =>
      cvPresent browser = false
      /\ scriptLoads browser && cvDefinedOnLoad browser
         && runtimeInitializes browser = false
      /\ w' = w
  | (w', Settled (inl e)) =>
      createWorker = throw e
      /\ tesseractWorker (service w) = None
      /\ tesseractWorker (service w') = None
      /\ isOpenCVReady (service w') = true
      /\ (cvPresent browser = true
          \/ scriptLoads browser && cvDefinedOnLoad browser
             && runtimeInitializes browser = true)
  | (w', Settled (inr _)) =>
      notInitialized (service w') = false
      /\ events w' = events w
      /\ (cvPresent browser = true
          \/ scriptLoads browser && cvDefinedOnLoad browser
             && runtimeInitializes browser = true)
      /\ match tesseractWorker (service w) with
         | Some worker => tesseractWorker (service w') = Some worker
         | None =>
             exists worker,
               createWorker = ok worker
               /\ tesseractWorker (service w') = Some worker
         end
  end.
Proof.
  unfold initialize, initializeOpenCV, initializeTesseract, setOpenCVReady,
    notInitialized, bind, this, await, setWorker, ret.
  destruct (cvPresent browser), (scriptLoads browser),
    (cvDefinedOnLoad browser), (runtimeInitializes browser); simpl.
  all: try (repeat split; reflexivity).
  all: destruct (tesseractWorker (service w)) as [worker |] eqn:Hworker; simpl.
  all: try (repeat split; first [reflexivity | left; reflexivity | right; reflexivity]).
  all: destruct createWorker as [e | worker]; simpl.
  all: repeat split;
    first [reflexivity | left; reflexivity | right; reflexivity
          | eexists; split; reflexivity].
Qed.

(** ** The upload zone *)

Lemma find_first {A : Type} (f : A -> bool) (l : list A) (x : A) :
  List.find f l = Some x ->
  exists before after,
    l = (before ++ x :: after)%list /\ f x = true
    /\ forall y, y ∈ before -> f y = false.
Proof.
  induction l as [| a l IH]; simpl; [discriminate |].
  destruct (f a) eqn:Ha.
  - intros [= <-]. exists [], l. repeat split; [exact Ha |].
    intros y Hy. inversion Hy.
  - intros Hfind. destruct (IH Hfind) as (before & after & -> & Hx & Hbefore).
    exists (a :: before), after. repeat split; [exact Hx |].
    intros y Hy. apply elem_of_cons in Hy as [-> | Hy]; [exact Ha | auto].
Qed.

(** X14. A drop uploads the first dropped file whose type starts with image/,
    and calls nothing when there is none; the file picker looks at its first
    file only, so that when it uploads, a drop of the same files uploads the
    same file; neither handler ever passes [null], and a first file that is
    an image is uploaded whatever its size. *)
Theorem upload_takes_first_image (files : list Upload.UploadedFile) :
  match Upload.handleDrop files with
  | Upload.Called (Some file) =>
      exists before after,
        files = (before ++ file :: after)%list
        /\ Upload.isImage file = true
        /\ forall other, other ∈ before -> Upload.isImage other = false
  | Upload.Called None => False
  | Upload.NotCalled => forall other, other ∈ files -> Upload.isImage other = false
  end
  /\ match Upload.handleFileSelect files with
     | Upload.Called (Some file) =>
         Upload.handleDrop files = Upload.Called (Some file)
         /\ exists rest, files = file :: rest
     | Upload.Called None => False
     | Upload.NotCalled =>
         match files with
         | [] => True
         | file :: _ => Upload.isImage file = false
         end
     end
  /\ forall file rest,
       Upload.isImage file = true ->
       Upload.handleFileSelect (file :: rest) = Upload.Called (Some file)
       /\ Upload.handleDrop (file :: rest) = Upload.Called (Some file).
Proof.
  split; [| split].
  - unfold Upload.handleDrop.
    destruct (List.find Upload.isImage files) as [file |] eqn:Hfind.
    + apply find_first, Hfind.
    + intros other Hother. apply list_elem_of_In in Hother.
      apply (find_none _ _ Hfind other Hother).
  - unfold Upload.handleFileSelect, Upload.handleDrop.
    destruct files as [| file rest]; [exact I |]. simpl.
    destruct (Upload.isImage file) eqn:Himage; [| reflexivity].
    split; [reflexivity | exists rest; reflexivity].
  - intros file rest Himage.
    unfold Upload.handleFileSelect, Upload.handleDrop. simpl.
    rewrite Himage. split; reflexivity.
Qed.

(** ** The handlers of the page *)

Section PageFacts.
Context {File Image Worker : Type}.
Variable loadImageFromFile : File -> Outcome Image.
Variable imageWidth imageHeight : Image -> Q.
Variable analysisData : Image -> Outcome (list Z).
Variable correlation : Image -> Image -> Q * Q -> Q * Q -> Outcome Q.
Variable recognize : Worker -> File -> Outcome OcrData.

(** The callback writes the message and the details only. *)
Lemma showProgress_writes (trace : list Event) (p : Page.State File) :
  let shown := fold_left Page.showProgress trace p in
  Page.idImage shown = Page.idImage p
  /\ Page.referenceImage shown = Page.referenceImage p
  /\ Page.processingState shown = Page.processingState p
  /\ Page.verificationResult shown = Page.verificationResult p
  /\ Page.isServiceReady shown = Page.isServiceReady p
  /\ Page.toasts shown = Page.toasts p.
Proof.
  revert p. induction trace as [| e trace IH]; intros p; simpl;
    [repeat split |].
  destruct (IH (Page.showProgress p e)) as (H1 & H2 & H3 & H4 & H5 & H6).
  rewrite H1, H2, H3, H4, H5, H6. destruct e; repeat split.
Qed.

End PageFacts.

(** X15. [handleVerification] without both images, or before the service is
    ready, shows one destructive toast and does nothing else: the toast is
    Missing Images when an image is missing and Service Not Ready otherwise,
    the service is not called and no other field of the page changes. *)
Theorem verification_is_guarded {File Image Worker : Type}
    (loadImageFromFile : File -> Outcome Image)
    (imageWidth imageHeight : Image -> Q)
    (analysisData : Image -> Outcome (list Z))
    (correlation : Image -> Image -> Q * Q -> Q * Q -> Outcome Q)
    (recognize : Worker -> File -> Outcome OcrData)
    (p : Page.State File) (w : @World Worker) :
  Page.idImage p = None \/ Page.referenceImage p = None
  \/ Page.isServiceReady p = false ->
  let after :=
    Page.handleVerification loadImageFromFile imageWidth imageHeight
      analysisData correlation recognize p w in
  let shown :=
    match Page.idImage p, Page.referenceImage p with
    | Some _, Some _ => Page.serviceNotReady
    | _, _ => Page.missingImages
    end in
  after = (Page.toast shown p, w)
  /\ Page.toasts (fst after) = (Page.toasts p ++ [shown])%list
  /\ Page.variant shown = "destructive"
  /\ Page.title Page.missingImages = "Missing Images"
  /\ Page.title Page.serviceNotReady = "Service Not Ready"
  /\ Page.idImage (fst after) = Page.idImage p
  /\ Page.referenceImage (fst after) = Page.referenceImage p
  /\ Page.processingMessage (fst after) = Page.processingMessage p
  /\ Page.processingDetails (fst after) = Page.processingDetails p
  /\ Page.processingState (fst after) = Page.processingState p
  /\ Page.verificationResult (fst after) = Page.verificationResult p
  /\ Page.isServiceReady (fst after) = Page.isServiceReady p
  /\ snd after = w.
Proof.
  intros Hguard. unfold Page.handleVerification.
  destruct (Page.idImage p) as [idImageFile |] eqn:Hid;
    [destruct (Page.referenceImage p) as [referenceImageFile |] eqn:Href |].
  - destruct Hguard as [H | [H | H]]; try discriminate.
    rewrite H. simpl. rewrite Hid, Href. repeat split. exact H.
  - simpl. rewrite Hid, Href. repeat split.
  - simpl. rewrite Hid. repeat split.
Qed.

(** A page without the identity image. *)
Lemma verification_is_guarded_witness :
  let after :=
    Page.handleVerification Stub.loadImageFromFile Stub.imageWidth
      Stub.imageHeight Stub.sharpCanvas Stub.correlation Stub.recognize
      Stub2.emptyPage Stub.start in
  let shown :=
    match Page.idImage Stub2.emptyPage, Page.referenceImage Stub2.emptyPage with
    | Some _, Some _ => Page.serviceNotReady
    | _, _ => Page.missingImages
    end in
  after = (Page.toast shown Stub2.emptyPage, Stub.start)
  /\ Page.toasts (fst after) = (Page.toasts Stub2.emptyPage ++ [shown])%list
  /\ Page.variant shown = "destructive"
  /\ Page.title Page.missingImages = "Missing Images"
  /\ Page.title Page.serviceNotReady = "Service Not Ready"
  /\ Page.idImage (fst after) = Page.idImage Stub2.emptyPage
  /\ Page.referenceImage (fst after) = Page.referenceImage Stub2.emptyPage
  /\ Page.processingMessage (fst after) = Page.processingMessage Stub2.emptyPage
  /\ Page.processingDetails (fst after) = Page.processingDetails Stub2.emptyPage
  /\ Page.processingState (fst after) = Page.processingState Stub2.emptyPage
  /\ Page.verificationResult (fst after) = Page.verificationResult Stub2.emptyPage
  /\ Page.isServiceReady (fst after) = Page.isServiceReady Stub2.emptyPage
  /\ snd after = Stub.start.
Proof.
  apply (verification_is_guarded Stub.loadImageFromFile Stub.imageWidth
           Stub.imageHeight Stub.sharpCanvas Stub.correlation Stub.recognize
           Stub2.emptyPage Stub.start).
  left. reflexivity.
Defined.

(** The percentage of two confidences whose product with 100 is rounded
    before [Math.round] sees it. *)
Example percentage_shown :
  Math_round (Double.mul (Double.round 0.285) 100) = 28%Z
  /\ Math_round (Double.mul (Double.round 0.015) 100) = 2%Z.
Proof. split; vm_compute; reflexivity. Qed.



(** X17. [resetVerification] clears both images, the result, the message and
    the details and puts the page in the idle state, and keeps the readiness
    of the service and the toasts; the button is then disabled, a
    verification asked for only shows the missing-images toast, and a second
    reset changes nothing. *)
Theorem reset_disables_verification {File Image Worker : Type}
    (loadImageFromFile : File -> Outcome Image)
    (imageWidth imageHeight : Image -> Q)
    (analysisData : Image -> Outcome (list Z))
    (correlation : Image -> Image -> Q * Q -> Q * Q -> Outcome Q)
    (recognize : Worker -> File -> Outcome OcrData)
    (p : Page.State File) (w : @World Worker) :
  let cleared := Page.resetVerification p in
  Page.idImage cleared = None
  /\ Page.referenceImage cleared = None
  /\ Page.verificationResult cleared = None
  /\ Page.processingState cleared = idle
  /\ Page.processingMessage cleared = ""
  /\ Page.processingDetails cleared = ""
  /\ Page.isServiceReady cleared = Page.isServiceReady p
  /\ Page.toasts cleared = Page.toasts p
  /\ Page.verifyEnabled cleared = false
  /\ Page.handleVerification loadImageFromFile imageWidth imageHeight
       analysisData correlation recognize cleared w
     = (Page.toast Page.missingImages cleared, w)
  /\ Page.resetVerification cleared = cleared.
Proof. repeat split. Qed.
